(** * chiral-nme: the M1 operator's per-order matrix elements (src/src/m1.cpp)

    A shallow embedding of the term evaluators of the magnetic-dipole
    operator and of the [M1Operator] dispatch methods, and of the loops of
    the driver (src/src/main.cpp) that accumulate them order by order,
    followed by the properties of the specification that concern them.

    - C++ [double] is IEEE 754 binary64, modelled by the standard library's
      [spec_float] at precision 53 and maximal exponent 1024 (round to
      nearest even), so that every evaluator computes inside Rocq.
    - [std::size_t] quantum numbers are [N].
    - The angular-momentum, quadrature and oscillator libraries, the physical
      constants and the helpers of utility.h are not defined in m1.cpp; they
      are interfaces ([Class]es, one per C++ namespace) the evaluators are
      parameterised over. *)

From Stdlib Require Import ZArith NArith Bool Lia.
From Stdlib Require Import Floats.SpecFloat.
From Stdlib Require Import List.
From Stdlib Require String.
Import ListNotations.

Local Open Scope Z_scope.

(** ** C++ [double] *)

Module Double.

Definition prec : Z := 53.
Definition emax : Z := 1024.

Definition double : Type := spec_float.

Definition add : double -> double -> double := SFadd prec emax.
Definition sub : double -> double -> double := SFsub prec emax.
Definition mul : double -> double -> double := SFmul prec emax.
Definition div : double -> double -> double := SFdiv prec emax.
Definition opp : double -> double := SFopp.
(** [std::sqrt] on a double. *)
Definition sqrt : double -> double := SFsqrt prec emax.

(** [isnan(x)]. *)
Definition isnan (x : double) : bool :=
  match x with
  | S754_nan => true
  | _ => false
  end.

(** Integral-to-floating conversion, as applied to the [int] literals and
    [int] variables that meet a [double] in an arithmetic expression.  It is
    exact on every 32-bit [int]. *)
Definition of_int (z : Z) : double := binary_normalize prec emax z 0 false.

(** A [bool] operand of a [double] product is promoted to [int] (1 or 0)
    and then converted. *)
Definition of_bool (b : bool) : double := of_int (if b then 1 else 0).

(** The literal [0] returned from a function of result type [double]. *)
Definition zero : double := S754_zero false.

(** The literal [0.5]. *)
Definition half : double := Eval vm_compute in div (of_int 1) (of_int 2).

(** The integer part of a double, rounding toward zero; infinities and NaN
    have none.  ([Z.shiftl] by a negative amount is the floor of the
    division by the power of two, taken here on the positive mantissa.) *)
Definition trunc (x : double) : option Z :=
  match x with
  | S754_zero _ => Some 0
  | S754_finite s m e => Some (cond_Zopp s (Z.shiftl (Zpos m) e))
  | S754_infinity _ | S754_nan => None
  end.

Definition int_min : Z := - 2 ^ 31.
Definition int_max : Z := 2 ^ 31 - 1.

(** Floating-to-integral conversion to a 32-bit [int]: the value is
    truncated toward zero; when the truncated value is not representable
    in [int] the behaviour is undefined ([None]). *)
Definition to_int (x : double) : option Z :=
  match trunc x with
  | Some z => if (int_min <=? z) && (z <=? int_max) then Some z else None
  | None => None
  end.

(** [|x| < 1] on the exact value [m * 2^e] of a double. *)
Definition magnitude_lt_one (x : double) : bool :=
  match x with
  | S754_zero _ => true
  | S754_finite _ m e => Zpos m <? 2 ^ (- e)
  | S754_infinity _ | S754_nan => false
  end.

(** [i] is the exact value of [x] rounded toward zero: [x] is a zero and
    [i = 0], or [x = (-1)^s * m * 2^e] and [i = (-1)^s * q] for the natural
    number [q] with [q <= m * 2^e < q + 1] (both sides scaled by the power
    of two that clears the negative exponent). *)
Definition is_truncation (x : double) (i : Z) : Prop :=
  match x with
  | S754_zero _ => i = 0
  | S754_finite s m e =>
      exists q : Z,
        i = cond_Zopp s q /\ 0 <= q /\
        q * 2 ^ Z.max 0 (- e) <= Zpos m * 2 ^ Z.max 0 e
          < (q + 1) * 2 ^ Z.max 0 (- e)
  | S754_infinity _ | S754_nan => False
  end.

(** The NaN policy of the evaluators: [if (isnan(result)) result = 0;]. *)
Definition sanitize (result : double) : double :=
  if isnan result then zero else result.

End Double.

Import Double.

Declare Scope double_scope.
Delimit Scope double_scope with double.
Bind Scope double_scope with double.
Infix "+" := add : double_scope.
Infix "-" := sub : double_scope.
Infix "*" := mul : double_scope.
Infix "/" := div : double_scope.
Notation "- x" := (opp x) : double_scope.

(** ** Quantum-number tuples and the oscillator parameter

    The state classes of basis/lsjt_scheme.h are read only through their
    accessors, each of which the evaluators store in a [std::size_t]. *)

Module RelativeStateLSJT.
Record t : Type := mk { n : N; L : N; S : N; J : N; T : N }.
End RelativeStateLSJT.

Module RelativeCMStateLSJT.
Record t : Type :=
  mk { Nr : N; lr : N; Nc : N; lc : N; L : N; S : N; J : N; T : N }.
End RelativeCMStateLSJT.

Module util.
(** [util::OscillatorParameter]: the accessors [relative()] and [cm()]. *)
Record OscillatorParameter : Type :=
  mkOscillatorParameter { relative : double; cm : double }.

(** The helpers [cube] and [square] of utility.h, applied to doubles. *)
Class Lib : Type := {
  cube : double -> double;
  square : double -> double
}.
End util.

(** ** The external namespaces *)

Module constants.
Class Lib : Type := {
  isoscalar_nucleon_magnetic_moment : double;
  isovector_nucleon_magnetic_moment : double;
  pion_mass_fm : double;
  gA : double;
  d18_fm : double;
  d9_fm : double;
  L2_fm : double;
  pi : double;
  nuclear_magneton_fm : double;
  pion_decay_constant_fm : double;
  nucleon_mass_fm : double
}.
End constants.

Module am.
(** Angular-momentum reduced matrix elements; each is called with
    quantum numbers and integer ranks and yields a double. *)
Class Lib : Type := {
  RelativeSpinSymmetricRME : N -> N -> N -> N -> N -> N -> N -> N -> double;
  RelativeSpinAntisymmetricRME :
    N -> N -> N -> N -> N -> N -> N -> N -> double;
  SpinSymmetricRME : N -> N -> double;
  SpinAntisymmetricRME : N -> N -> double;
  RelativeLrelRME : N -> N -> N -> N -> N -> N -> double;
  RelativePauliProductRME :
    N -> N -> N -> N -> N -> N -> N -> N -> N -> double;
  PauliProductRME : N -> N -> N -> double;
  RelativeCMSpinSymmetricRME :
    N -> N -> N -> N -> N -> N -> N -> N -> N -> N ->
    N -> N -> N -> N -> double;
  RelativeCMSpinAntisymmetricRME :
    N -> N -> N -> N -> N -> N -> N -> N -> N -> N ->
    N -> N -> N -> N -> double;
  RelativeCMLsumRME :
    N -> N -> N -> N -> N -> N -> N -> N -> N -> N -> double;
  RelativeCMPauliProductRME :
    N -> N -> N -> N -> N -> N -> N -> N -> N -> N ->
    N -> N -> N -> N -> N -> double;
  GradientME : N -> N -> N -> N -> double;
  RadiusME : N -> N -> N -> N -> double
}.
End am.

Module ho.
Class Lib : Type := {
  CoordinateSpaceNorm : N -> N -> N -> double
}.
End ho.

Module quadrature.
(** Modelled from the spec: the declaration of [gsl_params_2n]
    (integrals.h) is not among the sources.  Both evaluators build it by
    aggregate initialisation from seven values; the spec lists the members
    in this order: bra n, bra L, ket n, ket L, the regularize flag, the
    scaled regulator, the scaled pion mass. *)
Record gsl_params_2n : Type := mk_gsl_params_2n {
  np : N;
  lp : N;
  n : N;
  l : N;
  regularize : bool;
  scaled_regulator : double;
  scaled_pion_mass : double
}.

Class Lib : Type := {
  IntegralZPiYPiR : gsl_params_2n -> double;
  IntegralTPiYPiR : gsl_params_2n -> double;
  IntegralMPiRWPiRYPiR : gsl_params_2n -> double;
  IntegralYPiR : gsl_params_2n -> double;
  IntegralWPiRYPiR : gsl_params_2n -> double;
  IntegralRegularizedDelta : gsl_params_2n -> double;
  IntegralMPiR : N -> N -> N -> N -> double
}.
End quadrature.

Local Open Scope N_scope.
Local Open Scope double_scope.

(** ** The term evaluators on relative states *)

Module Relative.
Section Evaluators.
Context {C : constants.Lib} {U : util.Lib} {A : am.Lib}
        {H : ho.Lib} {Q : quadrature.Lib}.

Definition NLO1Body (bra ket : RelativeStateLSJT.t) (T0 : N) : double :=
  let nr := RelativeStateLSJT.n ket in let nrp := RelativeStateLSJT.n bra in
  let L := RelativeStateLSJT.L ket in let Lp := RelativeStateLSJT.L bra in
  let S := RelativeStateLSJT.S ket in let Sp := RelativeStateLSJT.S bra in
  let J := RelativeStateLSJT.J ket in let Jp := RelativeStateLSJT.J bra in
  let T := RelativeStateLSJT.T ket in let Tp := RelativeStateLSJT.T bra in
  if negb (nr =? nrp) || negb (L =? Lp) then zero
  else
    let symm_rme_spin := am.RelativeSpinSymmetricRME Lp L Sp S Jp J 0 1 in
    let symm_rme_isospin := am.SpinSymmetricRME Tp T in
    let asymm_rme_spin :=
      am.RelativeSpinAntisymmetricRME Lp L Sp S Jp J 0 1 in
    let asymm_rme_isospin := am.SpinAntisymmetricRME Tp T in
    let delta_T := of_bool (Tp =? T) in
    if T0 =? 0 then
      let spin_symm_term :=
        constants.isoscalar_nucleon_magnetic_moment
        * symm_rme_spin * delta_T in
      let oam_term :=
        half * am.RelativeLrelRME Lp L Sp S Jp J * delta_T in
      spin_symm_term + oam_term
    else if T0 =? 1 then
      let spin_symm_term :=
        constants.isovector_nucleon_magnetic_moment
        * symm_rme_spin * symm_rme_isospin in
      let spin_asymm_term :=
        constants.isovector_nucleon_magnetic_moment
        * asymm_rme_spin * asymm_rme_isospin in
      let oam_term :=
        half * am.RelativeLrelRME Lp L Sp S Jp J * symm_rme_isospin in
      spin_symm_term + spin_asymm_term + oam_term
    else zero.

(** The parameter bundle [prel] that [NLO2Body] hands to the quadrature
    routines (m1.cpp, lines 218-225). *)
Definition NLO2Body_prel (bra ket : RelativeStateLSJT.t)
    (b : util.OscillatorParameter) (regularize : bool) (regulator : double)
    : quadrature.gsl_params_2n :=
  let nr := RelativeStateLSJT.n ket in let nrp := RelativeStateLSJT.n bra in
  let L := RelativeStateLSJT.L ket in let Lp := RelativeStateLSJT.L bra in
  let brel := util.relative b in
  let scaled_regulator_rel := regulator / brel in
  let scaled_pion_mass_rel := constants.pion_mass_fm * brel in
  quadrature.mk_gsl_params_2n
    nrp Lp nr L regularize scaled_regulator_rel scaled_pion_mass_rel.

Definition NLO2Body (bra ket : RelativeStateLSJT.t)
    (b : util.OscillatorParameter) (regularize : bool) (regulator : double)
    (T0 : N) : double :=
  if negb (T0 =? 1) then zero
  else
    let nr := RelativeStateLSJT.n ket in
    let nrp := RelativeStateLSJT.n bra in
    let L := RelativeStateLSJT.L ket in let Lp := RelativeStateLSJT.L bra in
    let S := RelativeStateLSJT.S ket in let Sp := RelativeStateLSJT.S bra in
    let J := RelativeStateLSJT.J ket in let Jp := RelativeStateLSJT.J bra in
    let T := RelativeStateLSJT.T ket in let Tp := RelativeStateLSJT.T bra in
    let prel := NLO2Body_prel bra ket b regularize regulator in
    let norm_product_rel :=
      ho.CoordinateSpaceNorm nr L 1 * ho.CoordinateSpaceNorm nrp Lp 1 in
    let zpi_integral :=
      norm_product_rel * quadrature.IntegralZPiYPiR prel in
    let tpi_integral :=
      norm_product_rel * quadrature.IntegralTPiYPiR prel in
    let A6S1_rme :=
      sqrt (of_int 10) * am.RelativePauliProductRME Lp L Sp S Jp J 2 1 1 in
    let S1_rme := am.RelativePauliProductRME Lp L Sp S Jp J 0 1 1 in
    let T1_rme := am.PauliProductRME Tp T 1 in
    let lecp :=
      constants.gA * constants.d18_fm
      * util.cube constants.pion_mass_fm in
    let lecp :=
      lecp / (of_int 12 * constants.pi * constants.nuclear_magneton_fm
              * util.square constants.pion_decay_constant_fm) in
    let result := A6S1_rme * zpi_integral + S1_rme * tpi_integral in
    let result := result * (lecp * T1_rme) in
    sanitize result.

(** The parameter bundle [prel] of [N3LO2BodyIsoscalar]
    (m1.cpp, lines 414-418). *)
Definition N3LO2BodyIsoscalar_prel (bra ket : RelativeStateLSJT.t)
    (b : util.OscillatorParameter) (regularize : bool) (regulator : double)
    : quadrature.gsl_params_2n :=
  let nr := RelativeStateLSJT.n ket in let nrp := RelativeStateLSJT.n bra in
  let L := RelativeStateLSJT.L ket in let Lp := RelativeStateLSJT.L bra in
  let brel := util.relative b in
  let scaled_regulator_rel := regulator / brel in
  let scaled_pion_mass_rel := constants.pion_mass_fm * brel in
  quadrature.mk_gsl_params_2n
    nrp Lp nr L regularize scaled_pion_mass_rel scaled_regulator_rel.

(** The local [d9_term] of [N3LO2BodyIsoscalar] (lines 420-436). *)
Definition N3LO2BodyIsoscalar_d9_term (bra ket : RelativeStateLSJT.t)
    (b : util.OscillatorParameter) (regularize : bool) (regulator : double)
    : double :=
  let nr := RelativeStateLSJT.n ket in let nrp := RelativeStateLSJT.n bra in
  let L := RelativeStateLSJT.L ket in let Lp := RelativeStateLSJT.L bra in
  let S := RelativeStateLSJT.S ket in let Sp := RelativeStateLSJT.S bra in
  let J := RelativeStateLSJT.J ket in let Jp := RelativeStateLSJT.J bra in
  let T := RelativeStateLSJT.T ket in let Tp := RelativeStateLSJT.T bra in
  let S_rme := am.RelativeSpinSymmetricRME Lp L Sp S Jp J 0 1 in
  let prel := N3LO2BodyIsoscalar_prel bra ket b regularize regulator in
  let T0_rme := am.PauliProductRME Tp T 0 in
  let norm_product :=
    ho.CoordinateSpaceNorm nr L 1 * ho.CoordinateSpaceNorm nrp Lp 1 in
  let ypi_integral := norm_product * quadrature.IntegralYPiR prel in
  let wpi_integral := norm_product * quadrature.IntegralWPiRYPiR prel in
  let A6S_rme :=
    sqrt (of_int 10) * am.RelativeSpinSymmetricRME Lp L Sp S Jp J 2 1 in
  let d9_prefactor :=
    constants.gA * constants.d9_fm * util.cube constants.pion_mass_fm in
  let d9_prefactor :=
    d9_prefactor / (sqrt (of_int 3) * constants.pi
                    * util.square constants.pion_decay_constant_fm) in
  d9_prefactor * T0_rme * (wpi_integral * A6S_rme - ypi_integral * S_rme).

(** The local [L2_term] of [N3LO2BodyIsoscalar] (lines 438-444).  The
    guard is the source's [L == 0 && L == 0 && Tp == T], in which [L] is
    the orbital quantum number of the ket both times. *)
Definition N3LO2BodyIsoscalar_L2_term (bra ket : RelativeStateLSJT.t)
    (b : util.OscillatorParameter) (regularize : bool) (regulator : double)
    : double :=
  let L := RelativeStateLSJT.L ket in let Lp := RelativeStateLSJT.L bra in
  let S := RelativeStateLSJT.S ket in let Sp := RelativeStateLSJT.S bra in
  let J := RelativeStateLSJT.J ket in let Jp := RelativeStateLSJT.J bra in
  let T := RelativeStateLSJT.T ket in let Tp := RelativeStateLSJT.T bra in
  let S_rme := am.RelativeSpinSymmetricRME Lp L Sp S Jp J 0 1 in
  let brel := util.relative b in
  let prel := N3LO2BodyIsoscalar_prel bra ket b regularize regulator in
  let L2_term := zero in
  if (L =? 0) && (L =? 0) && (Tp =? T) then
    let delta_integral :=
      quadrature.IntegralRegularizedDelta prel / util.cube brel in
    L2_term + of_int 2 * constants.L2_fm * S_rme * delta_integral
  else L2_term.

Definition N3LO2BodyIsoscalar (bra ket : RelativeStateLSJT.t)
    (b : util.OscillatorParameter) (regularize : bool) (regulator : double)
    (T0 : N) : double :=
  let d9_term := N3LO2BodyIsoscalar_d9_term bra ket b regularize regulator in
  let L2_term := N3LO2BodyIsoscalar_L2_term bra ket b regularize regulator in
  let result := d9_term + L2_term in
  let result := result * (of_int 2 * constants.nucleon_mass_fm) in
  sanitize result.

End Evaluators.
End Relative.

(** ** The term evaluators on relative + centre-of-mass states *)

Module RelativeCM.
Section Evaluators.
Context {C : constants.Lib} {U : util.Lib} {A : am.Lib}
        {H : ho.Lib} {Q : quadrature.Lib}.

Definition NLO1Body (bra ket : RelativeCMStateLSJT.t) (T0 : N) : double :=
  let nr := RelativeCMStateLSJT.Nr ket in
  let nrp := RelativeCMStateLSJT.Nr bra in
  let lr := RelativeCMStateLSJT.lr ket in
  let lrp := RelativeCMStateLSJT.lr bra in
  let nc := RelativeCMStateLSJT.Nc ket in
  let ncp := RelativeCMStateLSJT.Nc bra in
  let lc := RelativeCMStateLSJT.lc ket in
  let lcp := RelativeCMStateLSJT.lc bra in
  let L := RelativeCMStateLSJT.L ket in
  let Lp := RelativeCMStateLSJT.L bra in
  let S := RelativeCMStateLSJT.S ket in
  let Sp := RelativeCMStateLSJT.S bra in
  let J := RelativeCMStateLSJT.J ket in
  let Jp := RelativeCMStateLSJT.J bra in
  let T := RelativeCMStateLSJT.T ket in
  let Tp := RelativeCMStateLSJT.T bra in
  let symm_rme_spin :=
    am.RelativeCMSpinSymmetricRME lrp lr lcp lc Lp L Sp S Jp J 0 0 0 1 in
  let symm_rme_isospin := am.SpinSymmetricRME Tp T in
  let asymm_rme_spin :=
    am.RelativeCMSpinAntisymmetricRME lrp lr lcp lc Lp L Sp S Jp J 0 0 0 1 in
  let asymm_rme_isospin := am.SpinAntisymmetricRME Tp T in
  let delta_T := of_bool (Tp =? T) in
  let lsum_me :=
    am.RelativeCMLsumRME lrp lr lcp lc Lp L Sp S Jp J
    * of_bool ((nrp =? nr) && (ncp =? nc)) in
  let mass_ratio_sqrt := half in
  let rcm_prel_me :=
    mass_ratio_sqrt * am.GradientME nrp nr lrp lr
    * am.RadiusME ncp nc lcp lc in
  let rrel_pcm_me :=
    am.RadiusME nrp nr lrp lr * am.GradientME ncp nc lcp lc
    / mass_ratio_sqrt in
  let result :=
    if T0 =? 0 then
      let spin_term :=
        constants.isoscalar_nucleon_magnetic_moment
        * symm_rme_spin * delta_T in
      let oam_term :=
        half * am.RelativeLrelRME Lp L Sp S Jp J * delta_T in
      spin_term + oam_term
    else if T0 =? 1 then
      let spin_symm_term :=
        constants.isovector_nucleon_magnetic_moment
        * symm_rme_spin * symm_rme_isospin in
      let spin_asymm_term :=
        constants.isovector_nucleon_magnetic_moment
        * asymm_rme_spin * asymm_rme_isospin in
      let oam_diagonal_term := half * lsum_me * symm_rme_isospin in
      let oam_cross_term :=
        half * (of_int 2 * rcm_prel_me + half * rrel_pcm_me)
        * asymm_rme_isospin in
      spin_symm_term + spin_asymm_term + oam_diagonal_term + oam_cross_term
    else zero in
  sanitize result.

(** The parameter bundle [prel] of the relative + CM [NLO2Body]
    (lines 341-348). *)
Definition NLO2Body_prel (bra ket : RelativeCMStateLSJT.t)
    (b : util.OscillatorParameter) (regularize : bool) (regulator : double)
    : quadrature.gsl_params_2n :=
  let nr := RelativeCMStateLSJT.Nr ket in
  let nrp := RelativeCMStateLSJT.Nr bra in
  let lr := RelativeCMStateLSJT.lr ket in
  let lrp := RelativeCMStateLSJT.lr bra in
  let brel := util.relative b in
  let scaled_regulator_rel := regulator / brel in
  let scaled_pion_mass_rel := constants.pion_mass_fm * brel in
  quadrature.mk_gsl_params_2n
    nrp lrp nr lr regularize scaled_regulator_rel scaled_pion_mass_rel.

(** The local [relative_cm] of [NLO2Body] (lines 350-378): the CM-frame
    contribution. *)
Definition NLO2Body_relative_cm (bra ket : RelativeCMStateLSJT.t)
    (b : util.OscillatorParameter) (regularize : bool) (regulator : double)
    : double :=
  let nr := RelativeCMStateLSJT.Nr ket in
  let nrp := RelativeCMStateLSJT.Nr bra in
  let lr := RelativeCMStateLSJT.lr ket in
  let lrp := RelativeCMStateLSJT.lr bra in
  let nc := RelativeCMStateLSJT.Nc ket in
  let ncp := RelativeCMStateLSJT.Nc bra in
  let lc := RelativeCMStateLSJT.lc ket in
  let lcp := RelativeCMStateLSJT.lc bra in
  let L := RelativeCMStateLSJT.L ket in
  let Lp := RelativeCMStateLSJT.L bra in
  let S := RelativeCMStateLSJT.S ket in
  let Sp := RelativeCMStateLSJT.S bra in
  let J := RelativeCMStateLSJT.J ket in
  let Jp := RelativeCMStateLSJT.J bra in
  let bcm := util.cm b in
  let prel := NLO2Body_prel bra ket b regularize regulator in
  let mpir_integral :=
    constants.pion_mass_fm * bcm * quadrature.IntegralMPiR ncp nc lcp lc in
  let norm_product_rel :=
    ho.CoordinateSpaceNorm nr lr 1 * ho.CoordinateSpaceNorm nrp lrp 1 in
  let mpir_wpi_integral :=
    norm_product_rel * quadrature.IntegralMPiRWPiRYPiR prel in
  let A1_rme :=
    - sqrt (of_int 3)
    * am.RelativeCMPauliProductRME
        lrp lr lcp lc Lp L Sp S Jp J 1 1 1 0 1 in
  let A2_rme :=
    sqrt (of_int 3 / of_int 5)
    * am.RelativeCMPauliProductRME
        lrp lr lcp lc Lp L Sp S Jp J 1 1 1 2 1 in
  let A3_rme :=
    sqrt (of_int 9 / of_int 5)
    * am.RelativeCMPauliProductRME
        lrp lr lcp lc Lp L Sp S Jp J 1 1 2 2 1 in
  let A4_rme :=
    sqrt (of_int 14 / of_int 5)
    * am.RelativeCMPauliProductRME
        lrp lr lcp lc Lp L Sp S Jp J 3 1 2 2 1 in
  let A5_rme :=
    sqrt (of_int 28 / of_int 5)
    * am.RelativeCMPauliProductRME
        lrp lr lcp lc Lp L Sp S Jp J 3 1 3 2 1 in
  let api_r :=
    A1_rme + mpir_wpi_integral * (A2_rme + A3_rme + A4_rme + A5_rme) in
  mpir_integral * api_r.

(** The double that line 384 assigns to the local [relative]:
    [zpi_integral * A6S1_rme + tpi_integral * S1_rme]. *)
Definition NLO2Body_relative_value (bra ket : RelativeCMStateLSJT.t)
    (b : util.OscillatorParameter) (regularize : bool) (regulator : double)
    : double :=
  let nr := RelativeCMStateLSJT.Nr ket in
  let nrp := RelativeCMStateLSJT.Nr bra in
  let lr := RelativeCMStateLSJT.lr ket in
  let lrp := RelativeCMStateLSJT.lr bra in
  let lc := RelativeCMStateLSJT.lc ket in
  let lcp := RelativeCMStateLSJT.lc bra in
  let L := RelativeCMStateLSJT.L ket in
  let Lp := RelativeCMStateLSJT.L bra in
  let S := RelativeCMStateLSJT.S ket in
  let Sp := RelativeCMStateLSJT.S bra in
  let J := RelativeCMStateLSJT.J ket in
  let Jp := RelativeCMStateLSJT.J bra in
  let prel := NLO2Body_prel bra ket b regularize regulator in
  let norm_product_rel :=
    ho.CoordinateSpaceNorm nr lr 1 * ho.CoordinateSpaceNorm nrp lrp 1 in
  let A6S1_rme :=
    sqrt (of_int 10)
    * am.RelativeCMPauliProductRME
        lrp lr lcp lc Lp L Sp S Jp J 0 2 2 1 1 in
  let S1_rme :=
    am.RelativeCMPauliProductRME lrp lr lcp lc Lp L Sp S Jp J 0 0 0 1 1 in
  let zpi_integral := norm_product_rel * quadrature.IntegralZPiYPiR prel in
  let tpi_integral := norm_product_rel * quadrature.IntegralTPiYPiR prel in
  zpi_integral * A6S1_rme + tpi_integral * S1_rme.

(** The prefactor [lec_prefactor * T1_rme] of line 386. *)
Definition NLO2Body_prefactor (bra ket : RelativeCMStateLSJT.t) : double :=
  let T := RelativeCMStateLSJT.T ket in
  let Tp := RelativeCMStateLSJT.T bra in
  let T1_rme := am.PauliProductRME Tp T 1 in
  let num :=
    constants.gA * util.cube constants.pion_mass_fm * constants.d18_fm in
  let denom :=
    of_int 12 * constants.pi
    * util.square constants.pion_decay_constant_fm in
  let lec_prefactor := num / denom in
  let lec_prefactor := lec_prefactor / constants.nuclear_magneton_fm in
  lec_prefactor * T1_rme.

(** [auto relative = 0;] declares an [int].  The assignment of line 384
    converts the double to [int]; the sum of line 386 converts the [int]
    back.  The result is [None] where the conversion to [int] has no
    defined behaviour. *)
Definition NLO2Body (bra ket : RelativeCMStateLSJT.t)
    (b : util.OscillatorParameter) (regularize : bool) (regulator : double)
    (T0 : N) : option double :=
  if negb (T0 =? 1) then Some zero
  else
    let nc := RelativeCMStateLSJT.Nc ket in
    let ncp := RelativeCMStateLSJT.Nc bra in
    let lc := RelativeCMStateLSJT.lc ket in
    let lcp := RelativeCMStateLSJT.lc bra in
    let relative_cm := NLO2Body_relative_cm bra ket b regularize regulator in
    let relative : option Z :=
      if (ncp =? nc) && (lcp =? lc) then
        to_int (NLO2Body_relative_value bra ket b regularize regulator)
      else Some 0%Z in
    match relative with
    | None => None
    | Some relative =>
        let result :=
          NLO2Body_prefactor bra ket * (relative_cm + of_int relative) in
        Some (sanitize result)
    end.

Definition N3LO2BodyIsoscalar (bra ket : RelativeCMStateLSJT.t)
    (b : util.OscillatorParameter) (regularize : bool) (regulator : double)
    (T0 : N) : double :=
  zero.

End Evaluators.
End RelativeCM.

(** ** The per-order methods of [M1Operator] *)

Module M1Operator.

(** The overloads on [basis::RelativeStateLSJT]. *)
Module OnRelative.
Section Methods.
Context {C : constants.Lib} {U : util.Lib} {A : am.Lib}
        {H : ho.Lib} {Q : quadrature.Lib}.

Definition LOMatrixElement (bra ket : RelativeStateLSJT.t)
    (b : util.OscillatorParameter) (regularize : bool) (regulator : double)
    (T0 Abody : N) : double :=
  zero.

Definition NLOMatrixElement (bra ket : RelativeStateLSJT.t)
    (b : util.OscillatorParameter) (regularize : bool) (regulator : double)
    (T0 Abody : N) : double :=
  if Abody =? 1 then Relative.NLO1Body bra ket T0
  else if Abody =? 2 then
    Relative.NLO2Body bra ket b regularize regulator T0
  else zero.

Definition N2LOMatrixElement (bra ket : RelativeStateLSJT.t)
    (b : util.OscillatorParameter) (regularize : bool) (regulator : double)
    (T0 Abody : N) : double :=
  zero.

Definition N3LOMatrixElement (bra ket : RelativeStateLSJT.t)
    (b : util.OscillatorParameter) (regularize : bool) (regulator : double)
    (T0 Abody : N) : double :=
  let result :=
    Relative.N3LO2BodyIsoscalar bra ket b regularize regulator T0 in
  result.

Definition N4LOMatrixElement (bra ket : RelativeStateLSJT.t)
    (b : util.OscillatorParameter) (regularize : bool) (regulator : double)
    (T0 Abody : N) : double :=
  zero.

End Methods.
End OnRelative.

(** The overloads on [basis::RelativeCMStateLSJT].  [NLOMatrixElement]
    inherits the [option] of [RelativeCM.NLO2Body]. *)
Module OnRelativeCM.
Section Methods.
Context {C : constants.Lib} {U : util.Lib} {A : am.Lib}
        {H : ho.Lib} {Q : quadrature.Lib}.

Definition LOMatrixElement (bra ket : RelativeCMStateLSJT.t)
    (b : util.OscillatorParameter) (regularize : bool) (regulator : double)
    (T0 Abody : N) : double :=
  zero.

Definition NLOMatrixElement (bra ket : RelativeCMStateLSJT.t)
    (b : util.OscillatorParameter) (regularize : bool) (regulator : double)
    (T0 Abody : N) : option double :=
  if Abody =? 1 then Some (RelativeCM.NLO1Body bra ket T0)
  else if Abody =? 2 then
    RelativeCM.NLO2Body bra ket b regularize regulator T0
  else Some zero.

Definition N2LOMatrixElement (bra ket : RelativeCMStateLSJT.t)
    (b : util.OscillatorParameter) (regularize : bool) (regulator : double)
    (T0 Abody : N) : double :=
  zero.

Definition N3LOMatrixElement (bra ket : RelativeCMStateLSJT.t)
    (b : util.OscillatorParameter) (regularize : bool) (regulator : double)
    (T0 Abody : N) : double :=
  if Abody =? 1 then zero
  else if Abody =? 2 then
    RelativeCM.N3LO2BodyIsoscalar bra ket b regularize regulator T0
  else zero.

Definition N4LOMatrixElement (bra ket : RelativeCMStateLSJT.t)
    (b : util.OscillatorParameter) (regularize : bool) (regulator : double)
    (T0 Abody : N) : double :=
  zero.

End Methods.
End OnRelativeCM.

End M1Operator.

(** ** A concrete environment

    The numeric libraries and constants are not part of m1.cpp, so
    evaluating an evaluator needs stand-ins for them.  Every constant of this
    environment is 1, every library function returns 1, and [cube] and
    [square] are the products their names say.  A second angular-momentum
    library differs in that its two symmetric-spin elements are
    not-a-number. *)

Module Fixture.

Definition one : double := of_int 1.

Definition constants_lib : constants.Lib := {|
  constants.isoscalar_nucleon_magnetic_moment := one;
  constants.isovector_nucleon_magnetic_moment := one;
  constants.pion_mass_fm := one;
  constants.gA := one;
  constants.d18_fm := one;
  constants.d9_fm := one;
  constants.L2_fm := one;
  constants.pi := one;
  constants.nuclear_magneton_fm := one;
  constants.pion_decay_constant_fm := one;
  constants.nucleon_mass_fm := one
|}.

Definition util_lib : util.Lib := {|
  util.cube := fun x => x * x * x;
  util.square := fun x => x * x
|}.

Definition am_lib : am.Lib := {|
  am.RelativeSpinSymmetricRME := fun _ _ _ _ _ _ _ _ => one;
  am.RelativeSpinAntisymmetricRME := fun _ _ _ _ _ _ _ _ => one;
  am.SpinSymmetricRME := fun _ _ => one;
  am.SpinAntisymmetricRME := fun _ _ => one;
  am.RelativeLrelRME := fun _ _ _ _ _ _ => one;
  am.RelativePauliProductRME := fun _ _ _ _ _ _ _ _ _ => one;
  am.PauliProductRME := fun _ _ _ => one;
  am.RelativeCMSpinSymmetricRME :=
    fun _ _ _ _ _ _ _ _ _ _ _ _ _ _ => one;
  am.RelativeCMSpinAntisymmetricRME :=
    fun _ _ _ _ _ _ _ _ _ _ _ _ _ _ => one;
  am.RelativeCMLsumRME := fun _ _ _ _ _ _ _ _ _ _ => one;
  am.RelativeCMPauliProductRME :=
    fun _ _ _ _ _ _ _ _ _ _ _ _ _ _ _ => one;
  am.GradientME := fun _ _ _ _ => one;
  am.RadiusME := fun _ _ _ _ => one
|}.

Definition am_nan_lib : am.Lib := {|
  am.RelativeSpinSymmetricRME := fun _ _ _ _ _ _ _ _ => S754_nan;
  am.RelativeSpinAntisymmetricRME := fun _ _ _ _ _ _ _ _ => one;
  am.SpinSymmetricRME := fun _ _ => one;
  am.SpinAntisymmetricRME := fun _ _ => one;
  am.RelativeLrelRME := fun _ _ _ _ _ _ => one;
  am.RelativePauliProductRME := fun _ _ _ _ _ _ _ _ _ => one;
  am.PauliProductRME := fun _ _ _ => one;
  am.RelativeCMSpinSymmetricRME :=
    fun _ _ _ _ _ _ _ _ _ _ _ _ _ _ => S754_nan;
  am.RelativeCMSpinAntisymmetricRME :=
    fun _ _ _ _ _ _ _ _ _ _ _ _ _ _ => one;
  am.RelativeCMLsumRME := fun _ _ _ _ _ _ _ _ _ _ => one;
  am.RelativeCMPauliProductRME :=
    fun _ _ _ _ _ _ _ _ _ _ _ _ _ _ _ => one;
  am.GradientME := fun _ _ _ _ => one;
  am.RadiusME := fun _ _ _ _ => one
|}.

Definition ho_lib : ho.Lib := {|
  ho.CoordinateSpaceNorm := fun _ _ _ => one
|}.

Definition quadrature_lib : quadrature.Lib := {|
  quadrature.IntegralZPiYPiR := fun _ => one;
  quadrature.IntegralTPiYPiR := fun _ => one;
  quadrature.IntegralMPiRWPiRYPiR := fun _ => one;
  quadrature.IntegralYPiR := fun _ => one;
  quadrature.IntegralWPiRYPiR := fun _ => one;
  quadrature.IntegralRegularizedDelta := fun _ => one;
  quadrature.IntegralMPiR := fun _ _ _ _ => one
|}.

(** A quadrature library whose Z-pion and T-pion integrals are 1/8, for
    a relative-frame contribution below 1 in magnitude. *)
Definition quadrature_small_lib : quadrature.Lib := {|
  quadrature.IntegralZPiYPiR := fun _ => of_int 1 / of_int 8;
  quadrature.IntegralTPiYPiR := fun _ => of_int 1 / of_int 8;
  quadrature.IntegralMPiRWPiRYPiR := fun _ => one;
  quadrature.IntegralYPiR := fun _ => one;
  quadrature.IntegralWPiRYPiR := fun _ => one;
  quadrature.IntegralRegularizedDelta := fun _ => one;
  quadrature.IntegralMPiR := fun _ _ _ _ => one
|}.

(** The deuteron channels: 3S1 (n = 0, L = 0, S = 1, J = 1, T = 0) and
    3D1 (L = 2). *)
Definition s_wave : RelativeStateLSJT.t := RelativeStateLSJT.mk 0 0 1 1 0.
Definition d_wave : RelativeStateLSJT.t := RelativeStateLSJT.mk 0 2 1 1 0.

(** A relative + CM state with every orbital number 0. *)
Definition cm_ground : RelativeCMStateLSJT.t :=
  RelativeCMStateLSJT.mk 0 0 0 0 0 1 1 0.

(** Relative oscillator length 2, centre-of-mass length 1. *)
Definition b : util.OscillatorParameter :=
  util.mkOscillatorParameter (of_int 2) one.

End Fixture.

(** ** Classes of doubles *)

(** [x] is one of the two zeros. *)
Definition is_zero (x : double) : bool :=
  match x with
  | S754_zero _ => true
  | _ => false
  end.

(** [x] is neither an infinity nor not-a-number ([std::isfinite]). *)
Definition is_finite (x : double) : bool :=
  match x with
  | S754_zero _ | S754_finite _ _ _ => true
  | S754_infinity _ | S754_nan => false
  end.

(** ** A second concrete environment

    An angular-momentum library with the values of an S-wave channel: the
    symmetric-spin element is 1 and the orbital element is 0.  The isoscalar
    magnetic moment is 7/8. *)

Module Scenario.

Definition constants_lib : constants.Lib := {|
  constants.isoscalar_nucleon_magnetic_moment := of_int 7 / of_int 8;
  constants.isovector_nucleon_magnetic_moment := Fixture.one;
  constants.pion_mass_fm := Fixture.one;
  constants.gA := Fixture.one;
  constants.d18_fm := Fixture.one;
  constants.d9_fm := Fixture.one;
  constants.L2_fm := Fixture.one;
  constants.pi := Fixture.one;
  constants.nuclear_magneton_fm := Fixture.one;
  constants.pion_decay_constant_fm := Fixture.one;
  constants.nucleon_mass_fm := Fixture.one
|}.

Definition am_lib : am.Lib := {|
  am.RelativeSpinSymmetricRME := fun _ _ _ _ _ _ _ _ => Fixture.one;
  am.RelativeSpinAntisymmetricRME := fun _ _ _ _ _ _ _ _ => Fixture.one;
  am.SpinSymmetricRME := fun _ _ => Fixture.one;
  am.SpinAntisymmetricRME := fun _ _ => Fixture.one;
  am.RelativeLrelRME := fun _ _ _ _ _ _ => zero;
  am.RelativePauliProductRME := fun _ _ _ _ _ _ _ _ _ => Fixture.one;
  am.PauliProductRME := fun _ _ _ => Fixture.one;
  am.RelativeCMSpinSymmetricRME :=
    fun _ _ _ _ _ _ _ _ _ _ _ _ _ _ => Fixture.one;
  am.RelativeCMSpinAntisymmetricRME :=
    fun _ _ _ _ _ _ _ _ _ _ _ _ _ _ => Fixture.one;
  am.RelativeCMLsumRME := fun _ _ _ _ _ _ _ _ _ _ => Fixture.one;
  am.RelativeCMPauliProductRME :=
    fun _ _ _ _ _ _ _ _ _ _ _ _ _ _ _ => Fixture.one;
  am.GradientME := fun _ _ _ _ => Fixture.one;
  am.RadiusME := fun _ _ _ _ => Fixture.one
|}.

(** An angular-momentum library whose symmetric-spin element of orbital
    rank 0 is 1 between equal L and 0 between different L. *)
Definition am_selection_lib : am.Lib := {|
  am.RelativeSpinSymmetricRME :=
    fun Lp L _ _ _ _ rank _ =>
      if (rank =? 0) && negb (Lp =? L) then zero else Fixture.one;
  am.RelativeSpinAntisymmetricRME := fun _ _ _ _ _ _ _ _ => Fixture.one;
  am.SpinSymmetricRME := fun _ _ => Fixture.one;
  am.SpinAntisymmetricRME := fun _ _ => Fixture.one;
  am.RelativeLrelRME := fun _ _ _ _ _ _ => Fixture.one;
  am.RelativePauliProductRME := fun _ _ _ _ _ _ _ _ _ => Fixture.one;
  am.PauliProductRME := fun _ _ _ => Fixture.one;
  am.RelativeCMSpinSymmetricRME :=
    fun _ _ _ _ _ _ _ _ _ _ _ _ _ _ => Fixture.one;
  am.RelativeCMSpinAntisymmetricRME :=
    fun _ _ _ _ _ _ _ _ _ _ _ _ _ _ => Fixture.one;
  am.RelativeCMLsumRME := fun _ _ _ _ _ _ _ _ _ _ => Fixture.one;
  am.RelativeCMPauliProductRME :=
    fun _ _ _ _ _ _ _ _ _ _ _ _ _ _ _ => Fixture.one;
  am.GradientME := fun _ _ _ _ => Fixture.one;
  am.RadiusME := fun _ _ _ _ => Fixture.one
|}.

(** A quadrature library whose Z-pion integral is not-a-number. *)
Definition quadrature_nan_lib : quadrature.Lib := {|
  quadrature.IntegralZPiYPiR := fun _ => S754_nan;
  quadrature.IntegralTPiYPiR := fun _ => Fixture.one;
  quadrature.IntegralMPiRWPiRYPiR := fun _ => Fixture.one;
  quadrature.IntegralYPiR := fun _ => Fixture.one;
  quadrature.IntegralWPiRYPiR := fun _ => Fixture.one;
  quadrature.IntegralRegularizedDelta := fun _ => Fixture.one;
  quadrature.IntegralMPiR := fun _ _ _ _ => Fixture.one
|}.

(** 1S0 (n = 0, L = 0, S = 0, J = 0, T = 1) and 1P1 (L = 1, S = 0, J = 1,
    T = 0) relative states; a relative + CM state with one CM quantum. *)
Definition singlet_s : RelativeStateLSJT.t := RelativeStateLSJT.mk 0 0 0 0 1.
Definition singlet_p : RelativeStateLSJT.t := RelativeStateLSJT.mk 0 1 0 1 0.
Definition cm_excited : RelativeCMStateLSJT.t :=
  RelativeCMStateLSJT.mk 0 0 0 1 1 1 1 0.
Definition cm_isovector : RelativeCMStateLSJT.t :=
  RelativeCMStateLSJT.mk 0 0 0 0 0 0 0 1.

End Scenario.

(** ** The driver (src/src/main.cpp) and the orders (src/src/chiral.h) *)

Module chiral.

Inductive Order : Type := lo | nlo | n2lo | n3lo | n4lo | full.

End chiral.

Module main.

(** The place of one matrix element in the operator containers:
    [matrices[T0][sector_index](bra_index, ket_index)]. *)
Record index : Type :=
  mk_index { T0 : nat; sector_index : nat; bra_index : nat; ket_index : nat }.

Definition index_eqb (i j : index) : bool :=
  Nat.eqb (T0 i) (T0 j) && Nat.eqb (sector_index i) (sector_index j)
  && Nat.eqb (bra_index i) (bra_index j)
  && Nat.eqb (ket_index i) (ket_index j).

(** [std::array<basis::OperatorBlocks<double>, 3>], read and written one
    element at a time. *)
Definition blocks : Type := index -> double.

Definition set (m : blocks) (i : index) (v : double) : blocks :=
  fun j => if index_eqb j i then v else m j.

(** What the run leaves behind: the two containers and the files written,
    oldest first, each with the container it was written from. *)
Record state : Type := mk_state {
  temp_matrices : blocks;
  matrices : blocks;
  written : list (String.string * blocks)
}.

(** Lines 102-103: the oscillator length from the oscillator energy. *)
Definition osc_b (hbarc reduced_nucleon_mass_MeV hw : double) : double :=
  let hbarc2 := hbarc * hbarc in
  sqrt (hbarc2 / reduced_nucleon_mass_MeV / hw).

(** Line 22, the value of [hw] when the option [--hw] is not given:
    [double hw = 0;]. *)
Definition default_hw : double := zero.

(** [x] is a finite double above zero. *)
Definition is_positive_finite (x : double) : bool :=
  match x with
  | S754_finite false _ _ => true
  | _ => false
  end.

Section FileNames.
Import String.
Local Open Scope string_scope.

(** The operator name, and the strings of [Nmax], [Jmax], the oscillator
    energy and the time, as lines 104-112 and [std::to_string] produce
    them. *)
Variables name Nmax_str Jmax_str hw_str time_str : string.

(** Lines 156-159. *)
Definition order_file (first : string) : string :=
  name ++ "_2b_rel_" ++ first ++ "_N" ++ Nmax_str
  ++ "_J" ++ Jmax_str ++ "_hw" ++ hw_str
  ++ "_" ++ time_str ++ ".txt".

(** Lines 169-173. *)
Definition cumulative_file (order : string) : string :=
  name ++ "_2b_rel_" ++ order ++ "_cumulative"
  ++ "_N" ++ Nmax_str
  ++ "_J" ++ Jmax_str
  ++ "_hw" ++ hw_str ++ "_" ++ time_str ++ ".txt".

End FileNames.

Section Driver.

(** The entries of [chiral::order_map] in iteration order, each a name
    and an order; the keys of a map are pairwise different. *)
Variable order_map : list (String.string * chiral.Order).

(** [op->ReducedMatrixElement(order_e, bra_state, ket_state, osc_b)] for
    the bra and ket states found at an index. *)
Variable ReducedMatrixElement : chiral.Order -> index -> double.

(** The bounds of the loops: [op_params.T0_min], [op_params.T0_max],
    [sectors[T0].size()], and the sizes of the bra and ket subspaces of a
    sector. *)
Variables T0_min T0_max : nat.
Variable sectors_size : nat -> nat.
Variables bra_subspace_size ket_subspace_size : nat -> nat -> nat.

(** The pieces of the file names. *)
Variables name Nmax_str Jmax_str hw_str time_str : String.string.

(** The indices the four nested loops of lines 121-154 go through, in
    order. *)
Definition indices : list index :=
  flat_map
    (fun T0 =>
       flat_map
         (fun sector_index =>
            flat_map
              (fun bra_index =>
                 map (fun ket_index =>
                        mk_index T0 sector_index bra_index ket_index)
                     (seq 0 (ket_subspace_size T0 sector_index)))
              (seq 0 (bra_subspace_size T0 sector_index)))
         (seq 0 (sectors_size T0)))
    (seq T0_min (S T0_max - T0_min)).

(** Lines 143-149: the body of the innermost loop. *)
Definition assign (order_e : chiral.Order) (st : blocks * blocks) (i : index)
  : blocks * blocks :=
  let (temp_matrices, matrices) := st in
  (set temp_matrices i (ReducedMatrixElement order_e i),
   set matrices i (matrices i + ReducedMatrixElement order_e i)).

(** Lines 121-154: the loops over isospin, sectors and states for one
    order. *)
Definition sweep (order_e : chiral.Order) (st : blocks * blocks)
  : blocks * blocks :=
  fold_left (assign order_e) indices st.

(** Lines 119-161: what the loop over the orders does for one entry
    [(first, second)] of the map: the order is evaluated at every index and
    its file is written from [temp_matrices]. *)
Definition order_body (first : String.string) (second : chiral.Order)
    (st : state) : state :=
  let (temp, mats) := sweep second (temp_matrices st, matrices st) in
  mk_state temp mats
           (written st
            ++ [(order_file name Nmax_str Jmax_str hw_str time_str first,
                 temp)]).

(** Lines 118-166: the loop over the orders, which stops after the entry
    whose name is the requested order ([it == order_map.find(order)]). *)
Fixpoint orders_loop (its : list (String.string * chiral.Order))
    (order : String.string) (st : state) : state :=
  match its with
  | [] => st
  | (first, second) :: rest =>
      let st' := order_body first second st in
      if String.eqb first order then st' else orders_loop rest order st'
  end.

(** Lines 115-175: from the containers as constructed to the cumulative
    file. *)
Definition run (order : String.string) (matrices0 : blocks) : state :=
  let st := orders_loop order_map order (mk_state matrices0 matrices0 []) in
  mk_state (temp_matrices st) (matrices st)
           (written st
            ++ [(cumulative_file name Nmax_str Jmax_str hw_str time_str order,
                 matrices st)]).

End Driver.

End main.

(** ** A concrete run of the driver

    A map of three orders, an operator whose matrix element depends on the
    order alone, one isospin component with one sector of two bra states and
    one ket state. *)

Module DriverScenario.

Section Names.
Import String.
Local Open Scope string_scope.

Definition order_map : list (string * chiral.Order) :=
  [("lo", chiral.lo); ("nlo", chiral.nlo); ("n2lo", chiral.n2lo)].

Definition nlo_name : string := "nlo".
Definition unknown_name : string := "n5lo".
Definition operator_name : string := "M1".
Definition Nmax_str : string := "2".
Definition Jmax_str : string := "1".
Definition hw_str : string := "20".
Definition time_str : string := "1700000000".

End Names.

Definition ReducedMatrixElement (o : chiral.Order) (i : main.index)
  : double :=
  match o with
  | chiral.lo => zero
  | chiral.nlo => Fixture.one
  | _ => of_int 2
  end.

Definition T0_min : nat := 0.
Definition T0_max : nat := 0.
Definition sectors_size (T0 : nat) : nat := 1.
Definition bra_subspace_size (T0 sector_index : nat) : nat := 2.
Definition ket_subspace_size (T0 sector_index : nat) : nat := 1.

Definition inside : main.index := main.mk_index 0 0 1 0.
Definition outside : main.index := main.mk_index 0 0 2 0.

Definition zero_blocks : main.blocks := fun _ => zero.

Definition run (order : String.string) : main.state :=
  main.run order_map ReducedMatrixElement T0_min T0_max sectors_size
           bra_subspace_size ket_subspace_size
           operator_name Nmax_str Jmax_str hw_str time_str order zero_blocks.

End DriverScenario.

(** * Properties *)

(** ** The model of [double] *)

Example half_value : half = S754_finite false 4503599627370496 (-53)%Z.
Proof. reflexivity. Qed.

Example of_int_10 : of_int 10 = S754_finite false 5629499534213120 (-49)%Z.
Proof. reflexivity. Qed.

Example to_int_examples :
  to_int (of_int 7 / of_int 2) = Some 3%Z /\
  to_int (- (of_int 7 / of_int 2)) = Some (-3)%Z /\
  to_int (of_int 3 / of_int 4) = Some 0%Z /\
  to_int (of_int 4294967296) = None /\
  to_int S754_nan = None.
Proof. repeat split; reflexivity. Qed.


Lemma mul_nan_l (x : double) : S754_nan * x = S754_nan.
Proof. reflexivity. Qed.

Lemma mul_nan_r (x : double) : x * S754_nan = S754_nan.
Proof. destruct x; reflexivity. Qed.

Lemma add_nan_l (x : double) : S754_nan + x = S754_nan.
Proof. reflexivity. Qed.

Lemma add_nan_r (x : double) : x + S754_nan = S754_nan.
Proof. destruct x; reflexivity. Qed.

Lemma isnan_true (x : double) : isnan x = true <-> x = S754_nan.
Proof. destruct x; simpl; split; congruence. Qed.

(** Whatever it is applied to, [sanitize] yields a number. *)
Lemma sanitize_not_nan (x : double) : isnan (sanitize x) = false.
Proof. destruct x; reflexivity. Qed.

Lemma sanitize_number (x : double) : isnan x = false -> sanitize x = x.
Proof. unfold sanitize; intros ->; reflexivity. Qed.

(** [trunc] rounds toward zero. *)
Lemma trunc_is_truncation (x : double) (i : Z) :
  trunc x = Some i -> is_truncation x i.
Proof.
  destruct x as [s | s | | s m e]; unfold trunc, is_truncation;
    try discriminate.
  - intros [= <-]; reflexivity.
  - intros [= <-].
    exists (Z.shiftl (Zpos m) e); split; [reflexivity |].
    destruct (Z.le_gt_cases 0 e) as [He | He].
    + rewrite Z.shiftl_mul_pow2 by assumption.
      rewrite (Z.max_l 0 (- e)), (Z.max_r 0 e) by lia.
      assert (0 < 2 ^ e)%Z by (apply Z.pow_pos_nonneg; lia).
      rewrite Z.pow_0_r; nia.
    + rewrite Z.shiftl_div_pow2 by lia.
      rewrite (Z.max_r 0 (- e)), (Z.max_l 0 e) by lia.
      assert (Hp : (0 < 2 ^ (- e))%Z) by (apply Z.pow_pos_nonneg; lia).
      pose proof (Z.div_mod (Zpos m) (2 ^ (- e))) as Hd.
      pose proof (Z.mod_pos_bound (Zpos m) (2 ^ (- e)) Hp) as Hm.
      assert (0 <= Zpos m / 2 ^ (- e))%Z by (apply Z.div_pos; lia).
      rewrite Z.pow_0_r; nia.
Qed.

Lemma to_int_is_truncation (x : double) (i : Z) :
  to_int x = Some i -> is_truncation x i /\ (int_min <= i <= int_max)%Z.
Proof.
  unfold to_int.
  destruct (trunc x) as [z |] eqn:Ht; [| discriminate].
  destruct ((int_min <=? z)%Z && (z <=? int_max)%Z) eqn:Hr; [| discriminate].
  intros [= <-]; split.
  - apply trunc_is_truncation; assumption.
  - apply andb_true_iff in Hr; lia.
Qed.

(** A double of magnitude below 1 converts to the [int] 0. *)
Lemma to_int_magnitude_lt_one (x : double) :
  magnitude_lt_one x = true -> to_int x = Some 0%Z.
Proof.
  destruct x as [s | s | | s m e]; simpl; try discriminate.
  - reflexivity.
  - intros Hlt; apply Z.ltb_lt in Hlt.
    assert (He : (e < 0)%Z).
    { destruct (Z.le_gt_cases 0 e) as [He | He]; [| assumption].
      exfalso.
      destruct (Z.eq_dec e 0) as [-> | Hne]; [simpl in Hlt; lia |].
      rewrite Z.pow_neg_r in Hlt by lia; lia. }
    unfold to_int, trunc.
    rewrite Z.shiftl_div_pow2, Z.div_small by lia.
    destruct s; reflexivity.
Qed.

(** On the doubles that are valid binary64 values, [magnitude_lt_one x]
    is the comparison [fabs(x) < 1.0]. *)

Section MagnitudeBelowOne.
Local Open Scope Z_scope.

Lemma digits2_pos_bounds (m : positive) :
  2 ^ (Zpos (digits2_pos m) - 1) <= Zpos m < 2 ^ Zpos (digits2_pos m).
Proof.
  induction m as [m IH | m IH |]; cbn [digits2_pos].
  - rewrite Pos2Z.inj_succ.
    replace (Z.succ (Zpos (digits2_pos m)) - 1)
      with (Z.succ (Zpos (digits2_pos m) - 1)) by lia.
    rewrite !Z.pow_succ_r by lia; lia.
  - rewrite Pos2Z.inj_succ.
    replace (Z.succ (Zpos (digits2_pos m)) - 1)
      with (Z.succ (Zpos (digits2_pos m) - 1)) by lia.
    rewrite !Z.pow_succ_r by lia. lia.
  - cbn; lia.
Qed.

Lemma compare_cont_Eq (m c : positive) :
  Pos.compare_cont Eq m c = (m ?= c)%positive.
Proof. reflexivity. Qed.

Lemma magnitude_lt_one_fabs (x : double) :
  valid_binary prec emax x = true ->
  magnitude_lt_one x = SFltb (SFabs x) (of_int 1).
Proof.
  destruct x as [s | s | | s m e]; try reflexivity.
  unfold valid_binary, bounded, canonical_mantissa, fexp, emin, prec, emax.
  intros Hv; apply andb_true_iff in Hv; destruct Hv as [Hc _].
  apply Z.eqb_eq in Hc.
  assert (Hc' : Z.max (Zpos (digits2_pos m) + e - 53) (-1074) = e)
    by exact Hc.
  clear Hc.
  pose proof (digits2_pos_bounds m) as Hd.
  change (of_int 1) with (S754_finite false 4503599627370496 (-52)).
  remember 4503599627370496%positive as c eqn:Ec.
  assert (Hcz : Zpos c = 2 ^ 52) by (subst c; reflexivity).
  clear Ec.
  unfold magnitude_lt_one, SFltb, SFabs, SFcompare.
  rewrite compare_cont_Eq.
  assert (Hlow : e < -52 -> Zpos m < 2 ^ (- e)).
  { intros He.
    apply Z.lt_le_trans with (2 ^ Zpos (digits2_pos m)); [apply Hd |].
    apply Z.pow_le_mono_r; lia. }
  assert (Hhigh : -52 < e -> 2 ^ (- e) <= Zpos m).
  { intros He.
    apply Z.le_trans with (2 ^ (Zpos (digits2_pos m) - 1)); [| apply Hd].
    destruct (Z.le_gt_cases 0 (- e)).
    - apply Z.pow_le_mono_r; lia.
    - rewrite Z.pow_neg_r by lia. apply Z.pow_nonneg; lia. }
  destruct (Z.ltb_spec (Zpos m) (2 ^ (- e))) as [Hlt | Hge];
    destruct (Z.compare_spec e (-52)) as [He | He | He];
    try (destruct (Pos.compare_spec m c) as [Hm | Hm | Hm]);
    try reflexivity; exfalso;
    try (subst e; change (- (-52)) with 52 in *); lia.
Qed.

End MagnitudeBelowOne.

(** ** Orders without a contribution *)

(** C10. [LOMatrixElement], [N2LOMatrixElement] and [N4LOMatrixElement]
    return exactly 0.0 on every input: any bra and ket in either state
    representation, any oscillator parameter, regularization flag, regulator,
    T0 and body count. *)
Theorem LO_N2LO_N4LO_return_zero :
  forall (bra ket : RelativeStateLSJT.t) (bra_cm ket_cm : RelativeCMStateLSJT.t)
         (b : util.OscillatorParameter) (regularize : bool)
         (regulator : double) (T0 Abody : N),
    M1Operator.OnRelative.LOMatrixElement
      bra ket b regularize regulator T0 Abody = zero /\
    M1Operator.OnRelativeCM.LOMatrixElement
      bra_cm ket_cm b regularize regulator T0 Abody = zero /\
    M1Operator.OnRelative.N2LOMatrixElement
      bra ket b regularize regulator T0 Abody = zero /\
    M1Operator.OnRelativeCM.N2LOMatrixElement
      bra_cm ket_cm b regularize regulator T0 Abody = zero /\
    M1Operator.OnRelative.N4LOMatrixElement
      bra ket b regularize regulator T0 Abody = zero /\
    M1Operator.OnRelativeCM.N4LOMatrixElement
      bra_cm ket_cm b regularize regulator T0 Abody = zero.
Proof. intros; repeat split. Qed.

(** C9. The N3LO evaluator on relative + CM states returns exactly 0.0 on
    every input, and so does the [N3LOMatrixElement] overload that dispatches
    to it, whatever the body count. *)
Theorem N3LO_RelativeCM_returns_zero :
  forall (bra ket : RelativeCMStateLSJT.t) (b : util.OscillatorParameter)
         (regularize : bool) (regulator : double) (T0 Abody : N),
    RelativeCM.N3LO2BodyIsoscalar bra ket b regularize regulator T0 = zero /\
    M1Operator.OnRelativeCM.N3LOMatrixElement
      bra ket b regularize regulator T0 Abody = zero.
Proof.
  intros; split; [reflexivity |].
  unfold M1Operator.OnRelativeCM.N3LOMatrixElement.
  destruct (Abody =? 1); [reflexivity |].
  destruct (Abody =? 2); reflexivity.
Qed.

Section Evaluators.
Context {C : constants.Lib} {U : util.Lib} {A : am.Lib}
        {H : ho.Lib} {Q : quadrature.Lib}.

(** *** NLO *)

(** C7. On relative states [NLO1Body] returns exactly 0.0 whenever bra
    and ket differ in the radial number n or in the orbital number L, and
    whenever T0 is neither 0 nor 1. *)
Theorem NLO1Body_selection_rules :
  forall (bra ket : RelativeStateLSJT.t) (T0 : N),
    RelativeStateLSJT.n bra <> RelativeStateLSJT.n ket \/
    RelativeStateLSJT.L bra <> RelativeStateLSJT.L ket \/
    (T0 <> 0 /\ T0 <> 1) ->
    Relative.NLO1Body bra ket T0 = zero.
Proof.
  intros bra ket T0 Hsel; unfold Relative.NLO1Body; cbv zeta.
  destruct (N.eqb_spec (RelativeStateLSJT.n ket) (RelativeStateLSJT.n bra))
    as [En | En]; [| reflexivity].
  destruct (N.eqb_spec (RelativeStateLSJT.L ket) (RelativeStateLSJT.L bra))
    as [EL | EL]; [| reflexivity].
  cbn [negb orb].
  destruct Hsel as [Hn | [HL | [H0 H1]]]; [congruence | congruence |].
  apply N.eqb_neq in H0, H1; rewrite H0, H1; reflexivity.
Qed.

(** C8. [NLO2Body] returns exactly 0.0 whenever T0 is not 1, on relative
    states and on relative + CM states. *)
Theorem NLO2Body_isovector_only :
  forall (bra ket : RelativeStateLSJT.t)
         (bra_cm ket_cm : RelativeCMStateLSJT.t)
         (b : util.OscillatorParameter) (regularize : bool)
         (regulator : double) (T0 : N),
    T0 <> 1 ->
    Relative.NLO2Body bra ket b regularize regulator T0 = zero /\
    RelativeCM.NLO2Body bra_cm ket_cm b regularize regulator T0 = Some zero.
Proof.
  intros bra ket bra_cm ket_cm b regularize regulator T0 HT0.
  apply N.eqb_neq in HT0.
  unfold Relative.NLO2Body, RelativeCM.NLO2Body; rewrite HT0.
  split; reflexivity.
Qed.

(** *** N3LO on relative states *)

(** C6. [N3LO2BodyIsoscalar] on relative states does not depend on T0:
    the value it returns for the isoscalar component is the value it returns
    for any other T0, in particular for T0 = 1 and T0 = 2. *)
Theorem N3LO2BodyIsoscalar_ignores_T0 :
  forall (bra ket : RelativeStateLSJT.t) (b : util.OscillatorParameter)
         (regularize : bool) (regulator : double) (T0 T0' : N),
    Relative.N3LO2BodyIsoscalar bra ket b regularize regulator T0 =
    Relative.N3LO2BodyIsoscalar bra ket b regularize regulator T0'.
Proof. reflexivity. Qed.

(** The part of the L2 selection rule the guard does enforce: the L2 term
    is 0.0 when the ket has L <> 0 or the isospins differ. *)
Lemma L2_term_zero_ket_L_or_T :
  forall (bra ket : RelativeStateLSJT.t) (b : util.OscillatorParameter)
         (regularize : bool) (regulator : double),
    RelativeStateLSJT.L ket <> 0 \/
    RelativeStateLSJT.T bra <> RelativeStateLSJT.T ket ->
    Relative.N3LO2BodyIsoscalar_L2_term bra ket b regularize regulator
    = zero.
Proof.
  intros bra ket b regularize regulator Hsel.
  unfold Relative.N3LO2BodyIsoscalar_L2_term; cbv zeta.
  destruct Hsel as [HL | HT].
  - apply N.eqb_neq in HL; rewrite HL; reflexivity.
  - apply N.eqb_neq in HT; rewrite HT, !andb_false_r; reflexivity.
Qed.

(** The guard never reads the orbital number of the bra: with an S-wave
    ket and equal isospins the L2 term is computed for every bra. *)
Lemma L2_term_computed_for_any_bra_L :
  forall (bra ket : RelativeStateLSJT.t) (b : util.OscillatorParameter)
         (regularize : bool) (regulator : double),
    RelativeStateLSJT.L ket = 0 ->
    RelativeStateLSJT.T bra = RelativeStateLSJT.T ket ->
    Relative.N3LO2BodyIsoscalar_L2_term bra ket b regularize regulator
    = zero
      + of_int 2 * constants.L2_fm
        * am.RelativeSpinSymmetricRME
            (RelativeStateLSJT.L bra) 0
            (RelativeStateLSJT.S bra) (RelativeStateLSJT.S ket)
            (RelativeStateLSJT.J bra) (RelativeStateLSJT.J ket) 0 1
        * (quadrature.IntegralRegularizedDelta
             (Relative.N3LO2BodyIsoscalar_prel
                bra ket b regularize regulator)
           / util.cube (util.relative b)).
Proof.
  intros bra ket b regularize regulator HL HT.
  unfold Relative.N3LO2BodyIsoscalar_L2_term; cbv zeta.
  rewrite HL, HT, N.eqb_refl, N.eqb_refl; reflexivity.
Qed.

(** The relative overload of [N3LOMatrixElement] never reads the body
    count. *)
Lemma N3LOMatrixElement_Relative_ignores_Abody :
  forall (bra ket : RelativeStateLSJT.t) (b : util.OscillatorParameter)
         (regularize : bool) (regulator : double) (T0 Abody : N),
    M1Operator.OnRelative.N3LOMatrixElement
      bra ket b regularize regulator T0 Abody
    = Relative.N3LO2BodyIsoscalar bra ket b regularize regulator T0.
Proof. reflexivity. Qed.

(** *** The parameter bundles of the two relative two-body evaluators *)

Lemma prel_NLO2Body_eq :
  forall (bra ket : RelativeStateLSJT.t) (b : util.OscillatorParameter)
         (regularize : bool) (regulator : double),
    Relative.NLO2Body_prel bra ket b regularize regulator =
    quadrature.mk_gsl_params_2n
      (RelativeStateLSJT.n bra) (RelativeStateLSJT.L bra)
      (RelativeStateLSJT.n ket) (RelativeStateLSJT.L ket) regularize
      (regulator / util.relative b)
      (constants.pion_mass_fm * util.relative b).
Proof. reflexivity. Qed.

Lemma prel_N3LO2BodyIsoscalar_eq :
  forall (bra ket : RelativeStateLSJT.t) (b : util.OscillatorParameter)
         (regularize : bool) (regulator : double),
    Relative.N3LO2BodyIsoscalar_prel bra ket b regularize regulator =
    quadrature.mk_gsl_params_2n
      (RelativeStateLSJT.n bra) (RelativeStateLSJT.L bra)
      (RelativeStateLSJT.n ket) (RelativeStateLSJT.L ket) regularize
      (constants.pion_mass_fm * util.relative b)
      (regulator / util.relative b).
Proof. reflexivity. Qed.

(** The two bundles coincide exactly when the two scaled quantities do. *)
Lemma prel_equal_iff :
  forall (bra ket : RelativeStateLSJT.t) (b : util.OscillatorParameter)
         (regularize : bool) (regulator : double),
    Relative.N3LO2BodyIsoscalar_prel bra ket b regularize regulator =
    Relative.NLO2Body_prel bra ket b regularize regulator
    <-> regulator / util.relative b
        = constants.pion_mass_fm * util.relative b.
Proof.
  intros; rewrite prel_NLO2Body_eq, prel_N3LO2BodyIsoscalar_eq; split.
  - intros [= E _]; symmetry; exact E.
  - intros ->; reflexivity.
Qed.


End Evaluators.

(** ** The NaN policy *)

Section NaNPolicy.
Context {C : constants.Lib} {U : util.Lib} {A : am.Lib}
        {H : ho.Lib} {Q : quadrature.Lib}.

Lemma NLO2Body_Relative_not_nan :
  forall (bra ket : RelativeStateLSJT.t) (b : util.OscillatorParameter)
         (regularize : bool) (regulator : double) (T0 : N),
    isnan (Relative.NLO2Body bra ket b regularize regulator T0) = false.
Proof.
  intros; unfold Relative.NLO2Body.
  destruct (T0 =? 1); cbn [negb]; [apply sanitize_not_nan | reflexivity].
Qed.

Lemma N3LO2BodyIsoscalar_Relative_not_nan :
  forall (bra ket : RelativeStateLSJT.t) (b : util.OscillatorParameter)
         (regularize : bool) (regulator : double) (T0 : N),
    isnan (Relative.N3LO2BodyIsoscalar bra ket b regularize regulator T0)
    = false.
Proof. intros; apply sanitize_not_nan. Qed.

Lemma NLO1Body_RelativeCM_not_nan :
  forall (bra ket : RelativeCMStateLSJT.t) (T0 : N),
    isnan (RelativeCM.NLO1Body bra ket T0) = false.
Proof. intros; apply sanitize_not_nan. Qed.

Lemma NLO2Body_RelativeCM_not_nan :
  forall (bra ket : RelativeCMStateLSJT.t) (b : util.OscillatorParameter)
         (regularize : bool) (regulator : double) (T0 : N) (r : double),
    RelativeCM.NLO2Body bra ket b regularize regulator T0 = Some r ->
    isnan r = false.
Proof.
  intros bra ket b regularize regulator T0 r.
  unfold RelativeCM.NLO2Body.
  destruct (T0 =? 1); cbn [negb]; [| intros [= <-]; reflexivity].
  cbv zeta.
  match goal with
  | |- match ?o with _ => _ end = _ -> _ => destruct o as [i |]
  end; [| discriminate].
  intros [= <-]; apply sanitize_not_nan.
Qed.

(** The relative [NLO1Body] has no [isnan] test: a not-a-number from the
    symmetric-spin element reaches its caller, for T0 = 0 as for T0 = 1. *)
Lemma NLO1Body_Relative_propagates_nan :
  forall (bra ket : RelativeStateLSJT.t) (T0 : N),
    RelativeStateLSJT.n bra = RelativeStateLSJT.n ket ->
    RelativeStateLSJT.L bra = RelativeStateLSJT.L ket ->
    T0 = 0 \/ T0 = 1 ->
    am.RelativeSpinSymmetricRME
      (RelativeStateLSJT.L bra) (RelativeStateLSJT.L ket)
      (RelativeStateLSJT.S bra) (RelativeStateLSJT.S ket)
      (RelativeStateLSJT.J bra) (RelativeStateLSJT.J ket) 0 1
    = S754_nan ->
    Relative.NLO1Body bra ket T0 = S754_nan.
Proof.
  intros bra ket T0 En EL HT0 Hnan.
  unfold Relative.NLO1Body; cbv zeta.
  rewrite Hnan, En, EL, !N.eqb_refl; cbn [negb orb].
  destruct HT0 as [-> | ->]; cbn [N.eqb Pos.eqb];
    rewrite !mul_nan_r, !mul_nan_l, !add_nan_l; reflexivity.
Qed.

End NaNPolicy.

(** ** The relative-frame contribution of the relative + CM [NLO2Body] *)

Section RelativeFrame.
Context {C : constants.Lib} {U : util.Lib} {A : am.Lib}
        {H : ho.Lib} {Q : quadrature.Lib}.

(** Off the CM diagonal the local [relative] keeps its initial 0. *)
Lemma NLO2Body_off_CM_diagonal :
  forall (bra ket : RelativeCMStateLSJT.t) (b : util.OscillatorParameter)
         (regularize : bool) (regulator : double),
    RelativeCMStateLSJT.Nc bra <> RelativeCMStateLSJT.Nc ket \/
    RelativeCMStateLSJT.lc bra <> RelativeCMStateLSJT.lc ket ->
    RelativeCM.NLO2Body bra ket b regularize regulator 1 =
    Some (sanitize
            (RelativeCM.NLO2Body_prefactor bra ket
             * (RelativeCM.NLO2Body_relative_cm
                  bra ket b regularize regulator
                + zero))).
Proof.
  intros bra ket b regularize regulator Hoff.
  unfold RelativeCM.NLO2Body; cbn [N.eqb Pos.eqb negb]; cbv zeta.
  destruct Hoff as [Hn | Hl].
  - apply N.eqb_neq in Hn; rewrite Hn; reflexivity.
  - apply N.eqb_neq in Hl; rewrite Hl, andb_false_r; reflexivity.
Qed.


End RelativeFrame.

(** ** Evaluations in the concrete environment *)

Ltac by_evaluation := vm_compute; reflexivity.
Ltac differ := let E := fresh "E" in intro E; vm_compute in E; discriminate E.

Section InFixture.
#[local] Existing Instance Fixture.constants_lib.
#[local] Existing Instance Fixture.util_lib.
#[local] Existing Instance Fixture.am_lib.
#[local] Existing Instance Fixture.ho_lib.
#[local] Existing Instance Fixture.quadrature_lib.

(** The guard alone does not make the L2 term vanish for a bra with
    L <> 0: with a 3D1 bra (L = 2), a 3S1 ket (L = 0) and equal isospins the
    guard [L == 0 && L == 0 && Tp == T] holds and the L2 branch runs.  In the
    environment where every library element is 1, including the
    symmetric-spin element between L = 2 and L = 0, the term evaluates to
    0.25. *)
Theorem L2_term_active_for_D_wave_bra :
  RelativeStateLSJT.L Fixture.d_wave = 2 /\
  RelativeStateLSJT.L Fixture.s_wave = 0 /\
  RelativeStateLSJT.T Fixture.d_wave = RelativeStateLSJT.T Fixture.s_wave /\
  Relative.N3LO2BodyIsoscalar_L2_term
    Fixture.d_wave Fixture.s_wave Fixture.b true Fixture.one
  = of_int 1 / of_int 4 /\
  Relative.N3LO2BodyIsoscalar_L2_term
    Fixture.d_wave Fixture.s_wave Fixture.b true Fixture.one
  <> zero.
Proof.
  repeat split; try by_evaluation; differ.
Qed.

(** C2. The relative overload of [N3LOMatrixElement], called with body
    count 1 on the 3S1 channel, returns the two-body value of
    [N3LO2BodyIsoscalar] (about 2.9968 in the concrete environment), while
    the relative + CM overload returns 0.0 for body count 1. *)
Theorem N3LOMatrixElement_Relative_one_body_nonzero :
  M1Operator.OnRelative.N3LOMatrixElement
    Fixture.s_wave Fixture.s_wave Fixture.b true Fixture.one 0 1
  = S754_finite false 6748155802600242 (-51) /\
  M1Operator.OnRelative.N3LOMatrixElement
    Fixture.s_wave Fixture.s_wave Fixture.b true Fixture.one 0 1
  = Relative.N3LO2BodyIsoscalar
      Fixture.s_wave Fixture.s_wave Fixture.b true Fixture.one 0 /\
  M1Operator.OnRelative.N3LOMatrixElement
    Fixture.s_wave Fixture.s_wave Fixture.b true Fixture.one 0 1
  <> zero /\
  M1Operator.OnRelativeCM.N3LOMatrixElement
    Fixture.cm_ground Fixture.cm_ground Fixture.b true Fixture.one 0 1
  = zero.
Proof.
  repeat split; try by_evaluation; differ.
Qed.

Lemma NLO1Body_selection_rules_witness :
  (RelativeStateLSJT.n Fixture.s_wave <> RelativeStateLSJT.n Fixture.d_wave
   \/ RelativeStateLSJT.L Fixture.s_wave
      <> RelativeStateLSJT.L Fixture.d_wave
   \/ (0 <> 0 /\ 0 <> 1)) /\
  Relative.NLO1Body Fixture.s_wave Fixture.d_wave 0 = zero.
Proof.
  assert (Hsel :
    RelativeStateLSJT.n Fixture.s_wave <> RelativeStateLSJT.n Fixture.d_wave
    \/ RelativeStateLSJT.L Fixture.s_wave
       <> RelativeStateLSJT.L Fixture.d_wave
    \/ (0 <> 0 /\ 0 <> 1)) by (right; left; differ).
  split; [exact Hsel |].
  exact (NLO1Body_selection_rules Fixture.s_wave Fixture.d_wave 0 Hsel).
Defined.

Lemma NLO2Body_isovector_only_witness :
  0 <> 1 /\
  Relative.NLO2Body
    Fixture.s_wave Fixture.s_wave Fixture.b true Fixture.one 0 = zero /\
  RelativeCM.NLO2Body
    Fixture.cm_ground Fixture.cm_ground Fixture.b true Fixture.one 0
  = Some zero.
Proof.
  assert (HT0 : 0 <> 1) by differ.
  split; [exact HT0 |].
  exact (NLO2Body_isovector_only
           Fixture.s_wave Fixture.s_wave Fixture.cm_ground Fixture.cm_ground
           Fixture.b true Fixture.one 0 HT0).
Defined.


End InFixture.

Section InFixtureNaN.
#[local] Existing Instance Fixture.constants_lib.
#[local] Existing Instance Fixture.am_nan_lib.

(** C3. Where the symmetric-spin element is not-a-number, the relative
    [NLO1Body] on the 3S1 channel returns not-a-number for T0 = 0 and for
    T0 = 1: nothing replaces it with 0.0. *)
Theorem NLO1Body_Relative_returns_nan :
  Relative.NLO1Body Fixture.s_wave Fixture.s_wave 0 = S754_nan /\
  Relative.NLO1Body Fixture.s_wave Fixture.s_wave 1 = S754_nan /\
  isnan (Relative.NLO1Body Fixture.s_wave Fixture.s_wave 0) = true.
Proof. repeat split; by_evaluation. Qed.

(** The relative + CM sibling, whose symmetric-spin element is
    not-a-number as well, returns 0.0. *)
Example NLO1Body_RelativeCM_sanitizes :
  RelativeCM.NLO1Body Fixture.cm_ground Fixture.cm_ground 0 = zero /\
  RelativeCM.NLO1Body Fixture.cm_ground Fixture.cm_ground 1 = zero.
Proof. split; by_evaluation. Qed.

End InFixtureNaN.

Section InFixtureSmall.
#[local] Existing Instance Fixture.constants_lib.
#[local] Existing Instance Fixture.util_lib.
#[local] Existing Instance Fixture.am_lib.
#[local] Existing Instance Fixture.ho_lib.
#[local] Existing Instance Fixture.quadrature_small_lib.

(** With Z-pion and T-pion integrals of 1/8 the relative-frame
    contribution is (sqrt 10 + 1) / 8, about 0.52. *)
Example relative_value_small :
  RelativeCM.NLO2Body_relative_value
    Fixture.cm_ground Fixture.cm_ground Fixture.b true Fixture.one
  = S754_finite false 4686308029836714 (-53).
Proof. by_evaluation. Qed.


End InFixtureSmall.

(** * Further properties of the evaluators *)

(** ** Arithmetic with the two constants 0 and 1 *)

Section ExactProducts.
Local Open Scope Z_scope.

Lemma of_bool_true : of_bool true = of_int 1.
Proof. reflexivity. Qed.

Lemma of_bool_false : of_bool false = zero.
Proof. reflexivity. Qed.

(** A value in canonical form is left alone by the rounding step. *)
Lemma shr_fexp_canonical (m : positive) (e : Z) :
  canonical_mantissa prec emax m e = true ->
  shr_fexp prec emax (Zpos m) e loc_Exact
  = ({| shr_m := Zpos m; shr_r := false; shr_s := false |}, e).
Proof.
  unfold canonical_mantissa, shr_fexp; intros Hc; apply Z.eqb_eq in Hc.
  cbn [Zdigits2 shr_record_of_loc]; rewrite Hc, Z.sub_diag; reflexivity.
Qed.

(** Multiplying a valid double by 1.0 is exact. *)
Lemma mul_one_r (x : double) :
  valid_binary prec emax x = true -> (x * of_int 1)%double = x.
Proof.
  change (of_int 1) with (S754_finite false 4503599627370496 (-52)).
  destruct x as [s | s | | s m e]; cbn [valid_binary].
  - intros _; cbn; rewrite xorb_false_r; reflexivity.
  - intros _; cbn; rewrite xorb_false_r; reflexivity.
  - reflexivity.
  - unfold bounded; intros Hv; apply andb_true_iff in Hv.
    destruct Hv as [Hc Hb].
    unfold mul, SFmul; rewrite xorb_false_r, Pos.mul_comm.
    cbn [Pos.mul].
    unfold binary_round_aux.
    match goal with
    | |- context [shr_fexp _ _ (Zpos ?p) (e + -52) loc_Exact] =>
        assert (Hs :
          shr_fexp prec emax (Zpos p) (e + -52) loc_Exact
          = ({| shr_m := Zpos m; shr_r := false; shr_s := false |}, e))
    end.
    { unfold shr_fexp. cbn [Zdigits2 shr_record_of_loc digits2_pos].
      unfold canonical_mantissa in Hc; apply Z.eqb_eq in Hc.
      match goal with
      | |- shr _ _ ?n = _ => replace n with 52
      end.
      - unfold shr. f_equal; try reflexivity; lia.
      - rewrite <- Hc at 2. unfold fexp. lia. }
    rewrite Hs; cbn [shr_m loc_of_shr_record round_nearest_even].
    rewrite (shr_fexp_canonical m e Hc); cbn [shr_m].
    rewrite Hb; reflexivity.
Qed.

End ExactProducts.

(** A product with a zero is a zero or not-a-number. *)
Lemma mul_zero_r_cases (x : double) (s : bool) :
  is_zero (x * S754_zero s) = true \/ x * S754_zero s = S754_nan.
Proof. destruct x; cbn; auto. Qed.

Lemma mul_zero_r_finite (x : double) (s : bool) :
  is_finite x = true -> is_zero (x * S754_zero s) = true.
Proof. destruct x; cbn; congruence. Qed.

Lemma mul_zero_l_finite (x y : double) :
  is_zero x = true -> is_finite y = true -> is_zero (x * y) = true.
Proof.
  destruct x; try discriminate; destruct y; try discriminate; reflexivity.
Qed.

(** 0.0 plus a zero of either sign is 0.0. *)
Lemma add_zero_l_zero (y : double) : is_zero y = true -> zero + y = zero.
Proof. destruct y as [[|] | | |]; try discriminate; reflexivity. Qed.

Lemma mul_zero_r_is_zero (x y : double) :
  is_finite x = true -> is_zero y = true -> is_zero (x * y) = true.
Proof.
  destruct y as [s | | |]; try discriminate.
  intros Hx _; apply mul_zero_r_finite; assumption.
Qed.

Lemma add_zero_zero (x y : double) :
  is_zero x = true -> is_zero y = true -> is_zero (x + y) = true.
Proof.
  destruct x as [sx | | |]; try discriminate.
  destruct y as [sy | | |]; try discriminate.
  destruct sx, sy; reflexivity.
Qed.

(** Adding a zero to a double that is not a zero changes nothing. *)
Lemma add_zero_r (x y : double) :
  is_zero x = false -> is_zero y = true -> x + y = x.
Proof.
  destruct y as [sy | | |]; try discriminate.
  destruct x; try discriminate; reflexivity.
Qed.

Lemma sanitize_zero_or_nan (x : double) :
  is_zero x = true \/ x = S754_nan -> is_zero (sanitize x) = true.
Proof.
  intros [Hz | ->]; [| reflexivity].
  destruct x; try discriminate; reflexivity.
Qed.

Lemma to_int_not_finite (x : double) : is_finite x = false -> to_int x = None.
Proof. destruct x; try discriminate; reflexivity. Qed.

(** ** The support of the NLO matrix element *)

Section NLOSupport.
Context {C : constants.Lib} {U : util.Lib} {A : am.Lib}
        {H : ho.Lib} {Q : quadrature.Lib}.

(** X1. On relative states [NLOMatrixElement] is 0.0 outside two regions:
    the one-body term with T0 in {0, 1} between states of equal n and L,
    and the two-body term with T0 = 1. *)
Theorem NLOMatrixElement_Relative_support :
  forall (bra ket : RelativeStateLSJT.t) (b : util.OscillatorParameter)
         (regularize : bool) (regulator : double) (T0 Abody : N),
    ~ (Abody = 1 /\ (T0 = 0 \/ T0 = 1) /\
       RelativeStateLSJT.n bra = RelativeStateLSJT.n ket /\
       RelativeStateLSJT.L bra = RelativeStateLSJT.L ket) ->
    ~ (Abody = 2 /\ T0 = 1) ->
    M1Operator.OnRelative.NLOMatrixElement
      bra ket b regularize regulator T0 Abody = zero.
Proof.
  intros bra ket b regularize regulator T0 Abody H1 H2.
  unfold M1Operator.OnRelative.NLOMatrixElement.
  destruct (N.eqb_spec Abody 1) as [E1 | N1].
  - unfold Relative.NLO1Body; cbv zeta.
    destruct (N.eqb_spec (RelativeStateLSJT.n ket) (RelativeStateLSJT.n bra))
      as [En | En]; [| reflexivity].
    destruct (N.eqb_spec (RelativeStateLSJT.L ket) (RelativeStateLSJT.L bra))
      as [EL | EL]; [| reflexivity].
    cbn [negb orb].
    destruct (N.eqb_spec T0 0) as [E0 | N0]; [exfalso; apply H1; auto |].
    destruct (N.eqb_spec T0 1) as [E0 | N0']; [exfalso; apply H1; auto |].
    reflexivity.
  - destruct (N.eqb_spec Abody 2) as [E2 | N2]; [| reflexivity].
    unfold Relative.NLO2Body.
    destruct (N.eqb_spec T0 1) as [E0 | N0]; [exfalso; apply H2; auto |].
    reflexivity.
Qed.

(** X2. On relative + CM states [NLOMatrixElement] is 0.0 outside the
    one-body term with T0 in {0, 1} and the two-body term with T0 = 1. *)
Theorem NLOMatrixElement_RelativeCM_support :
  forall (bra ket : RelativeCMStateLSJT.t) (b : util.OscillatorParameter)
         (regularize : bool) (regulator : double) (T0 Abody : N),
    ~ (Abody = 1 /\ (T0 = 0 \/ T0 = 1)) ->
    ~ (Abody = 2 /\ T0 = 1) ->
    M1Operator.OnRelativeCM.NLOMatrixElement
      bra ket b regularize regulator T0 Abody = Some zero.
Proof.
  intros bra ket b regularize regulator T0 Abody H1 H2.
  unfold M1Operator.OnRelativeCM.NLOMatrixElement.
  destruct (N.eqb_spec Abody 1) as [E1 | N1].
  - unfold RelativeCM.NLO1Body; cbv zeta.
    destruct (N.eqb_spec T0 0) as [E0 | N0]; [exfalso; apply H1; auto |].
    destruct (N.eqb_spec T0 1) as [E0 | N0']; [exfalso; apply H1; auto |].
    reflexivity.
  - destruct (N.eqb_spec Abody 2) as [E2 | N2]; [| reflexivity].
    unfold RelativeCM.NLO2Body.
    destruct (N.eqb_spec T0 1) as [E0 | N0]; [exfalso; apply H2; auto |].
    reflexivity.
Qed.

(** ** Not-a-number at the level of the methods *)

(** X3. Apart from the one-body term, the relative [NLOMatrixElement]
    never returns not-a-number. *)
Theorem NLOMatrixElement_Relative_not_nan :
  forall (bra ket : RelativeStateLSJT.t) (b : util.OscillatorParameter)
         (regularize : bool) (regulator : double) (T0 Abody : N),
    Abody <> 1 ->
    isnan (M1Operator.OnRelative.NLOMatrixElement
             bra ket b regularize regulator T0 Abody) = false.
Proof.
  intros bra ket b regularize regulator T0 Abody N1.
  unfold M1Operator.OnRelative.NLOMatrixElement.
  apply N.eqb_neq in N1; rewrite N1.
  destruct (Abody =? 2); [apply NLO2Body_Relative_not_nan | reflexivity].
Qed.

(** X4. Whenever the relative + CM [NLOMatrixElement] returns a value, for
    any body count and T0, the value is a number. *)
Theorem NLOMatrixElement_RelativeCM_not_nan :
  forall (bra ket : RelativeCMStateLSJT.t) (b : util.OscillatorParameter)
         (regularize : bool) (regulator : double) (T0 Abody : N) (r : double),
    M1Operator.OnRelativeCM.NLOMatrixElement
      bra ket b regularize regulator T0 Abody = Some r ->
    isnan r = false.
Proof.
  intros bra ket b regularize regulator T0 Abody r.
  unfold M1Operator.OnRelativeCM.NLOMatrixElement.
  destruct (Abody =? 1).
  - intros [= <-]; apply NLO1Body_RelativeCM_not_nan.
  - destruct (Abody =? 2).
    + apply NLO2Body_RelativeCM_not_nan.
    + intros [= <-]; reflexivity.
Qed.

(** X5. The relative [N3LOMatrixElement] never returns not-a-number, for
    any T0 and any body count. *)
Theorem N3LOMatrixElement_Relative_not_nan :
  forall (bra ket : RelativeStateLSJT.t) (b : util.OscillatorParameter)
         (regularize : bool) (regulator : double) (T0 Abody : N),
    isnan (M1Operator.OnRelative.N3LOMatrixElement
             bra ket b regularize regulator T0 Abody) = false.
Proof.
  intros; unfold M1Operator.OnRelative.N3LOMatrixElement.
  apply N3LO2BodyIsoscalar_Relative_not_nan.
Qed.

(** ** When the relative + CM two-body term is undefined *)

(** X6. The relative + CM [NLO2Body] has no defined result exactly when
    T0 = 1, the CM quantum numbers are diagonal, and the relative-frame
    contribution has no conversion to [int]. *)
Theorem NLO2Body_RelativeCM_undefined_iff :
  forall (bra ket : RelativeCMStateLSJT.t) (b : util.OscillatorParameter)
         (regularize : bool) (regulator : double) (T0 : N),
    RelativeCM.NLO2Body bra ket b regularize regulator T0 = None <->
    T0 = 1 /\
    RelativeCMStateLSJT.Nc bra = RelativeCMStateLSJT.Nc ket /\
    RelativeCMStateLSJT.lc bra = RelativeCMStateLSJT.lc ket /\
    to_int (RelativeCM.NLO2Body_relative_value bra ket b regularize regulator)
    = None.
Proof.
  intros bra ket b regularize regulator T0.
  unfold RelativeCM.NLO2Body; cbv zeta.
  destruct (N.eqb_spec T0 1) as [E0 | N0]; cbn [negb];
    [| split; [discriminate | intros [E _]; contradiction]].
  destruct (N.eqb_spec (RelativeCMStateLSJT.Nc bra)
              (RelativeCMStateLSJT.Nc ket)) as [En | En]; cbn [andb];
    [| split; [discriminate | intros (_ & E & _); contradiction]].
  destruct (N.eqb_spec (RelativeCMStateLSJT.lc bra)
              (RelativeCMStateLSJT.lc ket)) as [El | El];
    [| split; [discriminate | intros (_ & _ & E & _); contradiction]].
  destruct (to_int (RelativeCM.NLO2Body_relative_value
                      bra ket b regularize regulator)) as [i |].
  - split; [discriminate | intros (_ & _ & _ & E); discriminate].
  - split; auto.
Qed.

(** X7. On the CM diagonal, a relative-frame contribution that is
    not-a-number or infinite is not replaced by 0.0: it reaches the
    conversion to [int], where the result of [NLO2Body] is undefined. *)
Theorem NLO2Body_RelativeCM_nan_not_sanitized :
  forall (bra ket : RelativeCMStateLSJT.t) (b : util.OscillatorParameter)
         (regularize : bool) (regulator : double),
    RelativeCMStateLSJT.Nc bra = RelativeCMStateLSJT.Nc ket ->
    RelativeCMStateLSJT.lc bra = RelativeCMStateLSJT.lc ket ->
    is_finite
      (RelativeCM.NLO2Body_relative_value bra ket b regularize regulator)
    = false ->
    RelativeCM.NLO2Body bra ket b regularize regulator 1 = None.
Proof.
  intros bra ket b regularize regulator En El Hnf.
  unfold RelativeCM.NLO2Body; cbn [N.eqb Pos.eqb negb]; cbv zeta.
  rewrite En, El, !N.eqb_refl; cbn [andb].
  rewrite (to_int_not_finite _ Hnf); reflexivity.
Qed.

End NLOSupport.

(** ** The isoscalar one-body term and the isospin Kronecker delta *)

Section IsoscalarOneBody.
Context {C : constants.Lib} {U : util.Lib} {A : am.Lib}
        {H : ho.Lib} {Q : quadrature.Lib}.

(** X8. For T0 = 0 and different bra and ket isospin the relative + CM
    [NLO1Body] returns a zero, whatever the library returns: the delta
    factor turns each term into a zero or into not-a-number, and the NaN test
    turns the latter into 0.0. *)
Theorem NLO1Body_RelativeCM_isoscalar_off_diagonal :
  forall (bra ket : RelativeCMStateLSJT.t),
    RelativeCMStateLSJT.T bra <> RelativeCMStateLSJT.T ket ->
    is_zero (RelativeCM.NLO1Body bra ket 0) = true.
Proof.
  intros bra ket HT; apply N.eqb_neq in HT.
  unfold RelativeCM.NLO1Body; cbv zeta; cbn [N.eqb].
  rewrite HT, of_bool_false.
  apply sanitize_zero_or_nan.
  match goal with
  | |- context [(?x * zero + ?y * zero)%double] =>
      destruct (mul_zero_r_cases x false) as [Hx | Hx];
      destruct (mul_zero_r_cases y false) as [Hy | Hy]
  end; fold zero in Hx, Hy.
  - left; apply add_zero_zero; assumption.
  - right; rewrite Hy; apply add_nan_r.
  - right; rewrite Hx; apply add_nan_l.
  - right; rewrite Hx; apply add_nan_l.
Qed.

(** X9. For T0 = 0 and different bra and ket isospin the relative
    [NLO1Body] returns a zero provided the two products in front of the delta
    factor are finite. *)
Theorem NLO1Body_Relative_isoscalar_off_diagonal :
  forall (bra ket : RelativeStateLSJT.t),
    RelativeStateLSJT.T bra <> RelativeStateLSJT.T ket ->
    is_finite
      (constants.isoscalar_nucleon_magnetic_moment
       * am.RelativeSpinSymmetricRME
           (RelativeStateLSJT.L bra) (RelativeStateLSJT.L ket)
           (RelativeStateLSJT.S bra) (RelativeStateLSJT.S ket)
           (RelativeStateLSJT.J bra) (RelativeStateLSJT.J ket) 0 1) = true ->
    is_finite
      (half
       * am.RelativeLrelRME
           (RelativeStateLSJT.L bra) (RelativeStateLSJT.L ket)
           (RelativeStateLSJT.S bra) (RelativeStateLSJT.S ket)
           (RelativeStateLSJT.J bra) (RelativeStateLSJT.J ket)) = true ->
    is_zero (Relative.NLO1Body bra ket 0) = true.
Proof.
  intros bra ket HT Hspin Hoam; apply N.eqb_neq in HT.
  unfold Relative.NLO1Body; cbv zeta; cbn [N.eqb].
  destruct (negb (RelativeStateLSJT.n ket =? RelativeStateLSJT.n bra)
            || negb (RelativeStateLSJT.L ket =? RelativeStateLSJT.L bra));
    [reflexivity |].
  rewrite HT, of_bool_false.
  apply add_zero_zero; apply mul_zero_r_finite; assumption.
Qed.

(** X10. For T0 = 0, equal n, L and isospin, and valid finite products,
    the delta factor is exact: the relative [NLO1Body] returns the sum of the
    spin term and the orbital term as they are. *)
Theorem NLO1Body_Relative_isoscalar_diagonal :
  forall (bra ket : RelativeStateLSJT.t),
    RelativeStateLSJT.n bra = RelativeStateLSJT.n ket ->
    RelativeStateLSJT.L bra = RelativeStateLSJT.L ket ->
    RelativeStateLSJT.T bra = RelativeStateLSJT.T ket ->
    valid_binary prec emax
      (constants.isoscalar_nucleon_magnetic_moment
       * am.RelativeSpinSymmetricRME
           (RelativeStateLSJT.L bra) (RelativeStateLSJT.L ket)
           (RelativeStateLSJT.S bra) (RelativeStateLSJT.S ket)
           (RelativeStateLSJT.J bra) (RelativeStateLSJT.J ket) 0 1) = true ->
    valid_binary prec emax
      (half
       * am.RelativeLrelRME
           (RelativeStateLSJT.L bra) (RelativeStateLSJT.L ket)
           (RelativeStateLSJT.S bra) (RelativeStateLSJT.S ket)
           (RelativeStateLSJT.J bra) (RelativeStateLSJT.J ket)) = true ->
    Relative.NLO1Body bra ket 0 =
    constants.isoscalar_nucleon_magnetic_moment
    * am.RelativeSpinSymmetricRME
        (RelativeStateLSJT.L bra) (RelativeStateLSJT.L ket)
        (RelativeStateLSJT.S bra) (RelativeStateLSJT.S ket)
        (RelativeStateLSJT.J bra) (RelativeStateLSJT.J ket) 0 1
    + half
      * am.RelativeLrelRME
          (RelativeStateLSJT.L bra) (RelativeStateLSJT.L ket)
          (RelativeStateLSJT.S bra) (RelativeStateLSJT.S ket)
          (RelativeStateLSJT.J bra) (RelativeStateLSJT.J ket).
Proof.
  intros bra ket En EL ET Hspin Hoam.
  unfold Relative.NLO1Body; cbv zeta; cbn [N.eqb].
  rewrite En, ET, !N.eqb_refl.
  replace (RelativeStateLSJT.L ket =? RelativeStateLSJT.L bra) with true
    by (symmetry; apply N.eqb_eq; congruence).
  cbn [negb orb]; rewrite of_bool_true.
  rewrite (mul_one_r _ Hspin), (mul_one_r _ Hoam); reflexivity.
Qed.

(** X11. Where the symmetric-spin element of the channel is 1 and its
    orbital element is a zero, the relative NLO one-body matrix element for
    T0 = 0 between states of equal n, L and isospin is the isoscalar nucleon
    magnetic moment itself (a valid double other than a zero), whatever the
    oscillator parameter, the regularization flag and the regulator. *)
Theorem NLOMatrixElement_isoscalar_magnetic_moment :
  forall (bra ket : RelativeStateLSJT.t) (b : util.OscillatorParameter)
         (regularize : bool) (regulator : double),
    RelativeStateLSJT.n bra = RelativeStateLSJT.n ket ->
    RelativeStateLSJT.L bra = RelativeStateLSJT.L ket ->
    RelativeStateLSJT.T bra = RelativeStateLSJT.T ket ->
    am.RelativeSpinSymmetricRME
      (RelativeStateLSJT.L bra) (RelativeStateLSJT.L ket)
      (RelativeStateLSJT.S bra) (RelativeStateLSJT.S ket)
      (RelativeStateLSJT.J bra) (RelativeStateLSJT.J ket) 0 1 = of_int 1 ->
    is_zero
      (am.RelativeLrelRME
         (RelativeStateLSJT.L bra) (RelativeStateLSJT.L ket)
         (RelativeStateLSJT.S bra) (RelativeStateLSJT.S ket)
         (RelativeStateLSJT.J bra) (RelativeStateLSJT.J ket)) = true ->
    valid_binary prec emax constants.isoscalar_nucleon_magnetic_moment = true ->
    is_zero constants.isoscalar_nucleon_magnetic_moment = false ->
    M1Operator.OnRelative.NLOMatrixElement bra ket b regularize regulator 0 1
    = constants.isoscalar_nucleon_magnetic_moment.
Proof.
  intros bra ket b regularize regulator En EL ET Hs Hl Hv Hnz.
  unfold M1Operator.OnRelative.NLOMatrixElement; cbn [N.eqb Pos.eqb].
  unfold Relative.NLO1Body; cbv zeta; cbn [N.eqb].
  rewrite En, ET, !N.eqb_refl.
  replace (RelativeStateLSJT.L ket =? RelativeStateLSJT.L bra) with true
    by (symmetry; apply N.eqb_eq; congruence).
  cbn [negb orb]; rewrite of_bool_true, Hs.
  rewrite !(mul_one_r _ Hv).
  apply add_zero_r; [assumption |].
  destruct (am.RelativeLrelRME _ _ _ _ _ _) as [s | | |]; try discriminate.
  reflexivity.
Qed.

(** ** N3LO on relative states: the d9 term alone *)

(** X12. When the ket has L <> 0 or bra and ket differ in isospin, the L2
    term is 0.0 and the value [N3LO2BodyIsoscalar] returns is computed from
    the d9 term alone. *)
Theorem N3LO2BodyIsoscalar_d9_only :
  forall (bra ket : RelativeStateLSJT.t) (b : util.OscillatorParameter)
         (regularize : bool) (regulator : double) (T0 : N),
    RelativeStateLSJT.L ket <> 0 \/
    RelativeStateLSJT.T bra <> RelativeStateLSJT.T ket ->
    Relative.N3LO2BodyIsoscalar_L2_term bra ket b regularize regulator = zero
    /\
    Relative.N3LO2BodyIsoscalar bra ket b regularize regulator T0 =
    sanitize
      ((Relative.N3LO2BodyIsoscalar_d9_term bra ket b regularize regulator
        + zero)
       * (of_int 2 * constants.nucleon_mass_fm)).
Proof.
  intros bra ket b regularize regulator T0 Hsel.
  pose proof (L2_term_zero_ket_L_or_T bra ket b regularize regulator Hsel)
    as HL2.
  split; [exact HL2 |].
  unfold Relative.N3LO2BodyIsoscalar; cbv zeta; rewrite HL2; reflexivity.
Qed.

(** ** The oscillator parameter *)

(** X13. The relative evaluators read the oscillator parameter through
    [relative()] only: two parameters with the same relative length give the
    same [NLO2Body] and the same [N3LO2BodyIsoscalar]. *)
Theorem Relative_evaluators_ignore_cm_length :
  forall (bra ket : RelativeStateLSJT.t) (b b' : util.OscillatorParameter)
         (regularize : bool) (regulator : double) (T0 : N),
    util.relative b = util.relative b' ->
    Relative.NLO2Body bra ket b regularize regulator T0 =
    Relative.NLO2Body bra ket b' regularize regulator T0 /\
    Relative.N3LO2BodyIsoscalar bra ket b regularize regulator T0 =
    Relative.N3LO2BodyIsoscalar bra ket b' regularize regulator T0.
Proof.
  intros bra ket b b' regularize regulator T0 Hrel.
  unfold Relative.NLO2Body, Relative.N3LO2BodyIsoscalar,
    Relative.N3LO2BodyIsoscalar_d9_term, Relative.N3LO2BodyIsoscalar_L2_term,
    Relative.NLO2Body_prel, Relative.N3LO2BodyIsoscalar_prel.
  cbv zeta; rewrite Hrel; split; reflexivity.
Qed.

End IsoscalarOneBody.

(** ** The L2 contact term *)

Section L2Contact.
Context {C : constants.Lib} {U : util.Lib} {A : am.Lib}
        {H : ho.Lib} {Q : quadrature.Lib}.


End L2Contact.

(** * The driver *)

(** ** The oscillator length *)

(** A quotient of two finite doubles carries the sign of the exact quotient
    whenever it is a number. *)
Lemma binary_round_aux_sign (sx : bool) (mx ex : Z) (lx : location) :
  binary_round_aux prec emax sx mx ex lx = S754_nan \/
  binary_round_aux prec emax sx mx ex lx = S754_zero sx \/
  binary_round_aux prec emax sx mx ex lx = S754_infinity sx \/
  exists m e, binary_round_aux prec emax sx mx ex lx = S754_finite sx m e.
Proof.
  unfold binary_round_aux.
  destruct (shr_fexp prec emax mx ex lx) as [mrs' e'].
  destruct (shr_fexp prec emax _ e' loc_Exact) as [mrs'' e''].
  destruct (shr_m mrs'') as [| m | m].
  - right; left; reflexivity.
  - destruct (e'' <=? emax - prec)%Z.
    + right; right; right; exists m, e''; reflexivity.
    + right; right; left; reflexivity.
  - left; reflexivity.
Qed.

(** X14. With the oscillator energy left at its default 0 and a positive
    quotient [hbarc^2 / reduced mass], the oscillator length is +infinity. *)
Theorem osc_b_default_hw_infinite :
  forall hbarc reduced_nucleon_mass_MeV : double,
    SFltb zero (hbarc * hbarc / reduced_nucleon_mass_MeV) = true ->
    main.osc_b hbarc reduced_nucleon_mass_MeV main.default_hw
    = S754_infinity false.
Proof.
  intros hbarc m; unfold main.osc_b; cbv zeta.
  destruct (hbarc * hbarc / m) as [s | s | | s q e]; try discriminate;
    destruct s; try discriminate; reflexivity.
Qed.

(** X15. No oscillator energy that is zero or negative gives a positive
    finite oscillator length. *)
Theorem osc_b_nonpositive_hw :
  forall hbarc reduced_nucleon_mass_MeV hw : double,
    SFltb zero (hbarc * hbarc / reduced_nucleon_mass_MeV) = true ->
    SFleb hw zero = true ->
    main.is_positive_finite (main.osc_b hbarc reduced_nucleon_mass_MeV hw)
    = false.
Proof.
  intros hbarc m hw; unfold main.osc_b; cbv zeta.
  destruct (hbarc * hbarc / m) as [s | s | | s q e]; try discriminate;
    destruct s; try discriminate; intros _;
    destruct hw as [t | t | | t p f]; try discriminate;
    destruct t; try discriminate; intros _; try reflexivity.
  unfold div, SFdiv.
  destruct (SFdiv_core_binary prec emax (Zpos q) e (Zpos p) f)
    as [[mz ez] lz].
  cbn [xorb].
  destruct (binary_round_aux_sign true mz ez lz)
    as [-> | [-> | [-> | (m' & e' & ->)]]]; reflexivity.
Qed.

(** ** The loops over orders, sectors and states *)

Lemma index_eqb_eq (i j : main.index) : main.index_eqb i j = true <-> i = j.
Proof.
  destruct i as [t s b k], j as [t' s' b' k']; unfold main.index_eqb; cbn.
  rewrite !andb_true_iff, !Nat.eqb_eq; split.
  - intros [[[-> ->] ->] ->]; reflexivity.
  - intros [= -> -> -> ->]; auto.
Qed.

Lemma set_same (m : main.blocks) (i : main.index) (v : double) :
  main.set m i v i = v.
Proof.
  unfold main.set.
  replace (main.index_eqb i i) with true
    by (symmetry; apply index_eqb_eq; reflexivity).
  reflexivity.
Qed.

Lemma set_other (m : main.blocks) (i j : main.index) (v : double) :
  j <> i -> main.set m i v j = m j.
Proof.
  intros Hne; unfold main.set.
  destruct (main.index_eqb j i) eqn:E; [| reflexivity].
  apply index_eqb_eq in E; contradiction.
Qed.

Lemma NoDup_flat_map {A B : Type} (f : A -> list B) (l : list A) :
  NoDup l ->
  (forall x, In x l -> NoDup (f x)) ->
  (forall x y b, In x l -> In y l -> In b (f x) -> In b (f y) -> x = y) ->
  NoDup (flat_map f l).
Proof.
  induction l as [| a l IH]; intros Hl Hf Hdisj; cbn [flat_map].
  - constructor.
  - apply NoDup_cons_iff in Hl; destruct Hl as [Ha Hl].
    apply NoDup_app.
    + apply Hf; left; reflexivity.
    + apply IH; [assumption | |].
      * intros x Hx; apply Hf; right; assumption.
      * intros x y b Hx Hy; apply Hdisj; right; assumption.
    + intros b Hb Hb'; apply in_flat_map in Hb'.
      destruct Hb' as (y & Hy & Hby).
      assert (a = y)
        by (apply (Hdisj a y b); [left; reflexivity | right | |]; assumption).
      subst y; contradiction.
Qed.

Section DriverFacts.
Variable order_map : list (String.string * chiral.Order).
Variable ReducedMatrixElement : chiral.Order -> main.index -> double.
Variables T0_min T0_max : nat.
Variable sectors_size : nat -> nat.
Variables bra_subspace_size ket_subspace_size : nat -> nat -> nat.
Variables name Nmax_str Jmax_str hw_str time_str : String.string.

Local Abbreviation indices :=
  (main.indices T0_min T0_max sectors_size
                bra_subspace_size ket_subspace_size).
Local Abbreviation sweep :=
  (main.sweep ReducedMatrixElement T0_min T0_max sectors_size
              bra_subspace_size ket_subspace_size).
Local Abbreviation order_body :=
  (main.order_body ReducedMatrixElement T0_min T0_max sectors_size
                   bra_subspace_size ket_subspace_size
                   name Nmax_str Jmax_str hw_str time_str).
Local Abbreviation orders_loop :=
  (main.orders_loop ReducedMatrixElement T0_min T0_max sectors_size
                    bra_subspace_size ket_subspace_size
                    name Nmax_str Jmax_str hw_str time_str).
Local Abbreviation run :=
  (main.run order_map ReducedMatrixElement T0_min T0_max sectors_size
            bra_subspace_size ket_subspace_size
            name Nmax_str Jmax_str hw_str time_str).
Local Abbreviation order_file :=
  (main.order_file name Nmax_str Jmax_str hw_str time_str).
Local Abbreviation cumulative_file :=
  (main.cumulative_file name Nmax_str Jmax_str hw_str time_str).

(** The loops never come to the same index twice. *)
Lemma indices_NoDup : NoDup indices.
Proof.
  unfold main.indices.
  apply NoDup_flat_map; [apply seq_NoDup | |].
  - intros t _; apply NoDup_flat_map; [apply seq_NoDup | |].
    + intros s _; apply NoDup_flat_map; [apply seq_NoDup | |].
      * intros b _.
        apply NoDup_map_inv with (f := main.ket_index).
        rewrite map_map; cbn [main.ket_index]; rewrite map_id.
        apply seq_NoDup.
      * intros b b' i _ _ Hi Hi'.
        apply in_map_iff in Hi, Hi'.
        destruct Hi as (k & <- & _), Hi' as (k' & [= -> _] & _).
        reflexivity.
    + intros s s' i _ _ Hi Hi'.
      apply in_flat_map in Hi, Hi'.
      destruct Hi as (b & _ & Hi), Hi' as (b' & _ & Hi').
      apply in_map_iff in Hi, Hi'.
      destruct Hi as (k & <- & _), Hi' as (k' & [= -> _ _] & _).
      reflexivity.
  - intros t t' i _ _ Hi Hi'.
    apply in_flat_map in Hi, Hi'.
    destruct Hi as (s & _ & Hi), Hi' as (s' & _ & Hi').
    apply in_flat_map in Hi, Hi'.
    destruct Hi as (b & _ & Hi), Hi' as (b' & _ & Hi').
    apply in_map_iff in Hi, Hi'.
    destruct Hi as (k & <- & _), Hi' as (k' & [= -> _ _ _] & _).
    reflexivity.
Qed.

(** An index is gone through exactly when each of its components is
    within the bounds of its loop. *)
Lemma in_indices (i : main.index) :
  In i indices <->
  (T0_min <= main.T0 i <= T0_max)%nat /\
  (main.sector_index i < sectors_size (main.T0 i))%nat /\
  (main.bra_index i
   < bra_subspace_size (main.T0 i) (main.sector_index i))%nat /\
  (main.ket_index i
   < ket_subspace_size (main.T0 i) (main.sector_index i))%nat.
Proof.
  unfold main.indices; rewrite in_flat_map; split.
  - intros (t & Ht & Hi); apply in_seq in Ht.
    apply in_flat_map in Hi; destruct Hi as (s & Hs & Hi); apply in_seq in Hs.
    apply in_flat_map in Hi; destruct Hi as (b & Hb & Hi); apply in_seq in Hb.
    apply in_map_iff in Hi; destruct Hi as (k & <- & Hk); apply in_seq in Hk.
    cbn [main.T0 main.sector_index main.bra_index main.ket_index]; lia.
  - destruct i as [t s b k].
    cbn [main.T0 main.sector_index main.bra_index main.ket_index].
    intros (Ht & Hs & Hb & Hk).
    exists t; split; [apply in_seq; lia |].
    apply in_flat_map; exists s; split; [apply in_seq; lia |].
    apply in_flat_map; exists b; split; [apply in_seq; lia |].
    apply in_map_iff; exists k; split; [reflexivity | apply in_seq; lia].
Qed.

Lemma fold_assign (order_e : chiral.Order) (l : list main.index) :
  NoDup l ->
  forall (temp mats : main.blocks) (i : main.index),
    (In i l ->
     fst (fold_left (main.assign ReducedMatrixElement order_e) l (temp, mats))
       i = ReducedMatrixElement order_e i /\
     snd (fold_left (main.assign ReducedMatrixElement order_e) l (temp, mats))
       i = mats i + ReducedMatrixElement order_e i) /\
    (~ In i l ->
     fst (fold_left (main.assign ReducedMatrixElement order_e) l (temp, mats))
       i = temp i /\
     snd (fold_left (main.assign ReducedMatrixElement order_e) l (temp, mats))
       i = mats i).
Proof.
  induction l as [| a l IH]; intros Hnd temp mats i.
  - cbn; split; [contradiction | auto].
  - apply NoDup_cons_iff in Hnd; destruct Hnd as [Ha Hnd].
    cbn [fold_left main.assign].
    specialize (IH Hnd
                  (main.set temp a (ReducedMatrixElement order_e a))
                  (main.set mats a (mats a + ReducedMatrixElement order_e a))
                  i).
    destruct IH as [IHin IHout].
    split.
    + intros [-> | Hi].
      * destruct (IHout Ha) as [-> ->]; rewrite !set_same; auto.
      * destruct (IHin Hi) as [-> ->].
        assert (i <> a) by (intros ->; contradiction).
        rewrite set_other by assumption; auto.
    + intros Hni.
      assert (i <> a) by (intros ->; apply Hni; left; reflexivity).
      destruct IHout as [-> ->]; [intros Hi; apply Hni; right; assumption |].
      rewrite !set_other by assumption; auto.
Qed.

(** One pass of the loops at one index. *)
Lemma sweep_at_index :
  forall (order_e : chiral.Order) (temp mats : main.blocks) (i : main.index),
    (In i indices ->
     fst (sweep order_e (temp, mats)) i = ReducedMatrixElement order_e i /\
     snd (sweep order_e (temp, mats)) i
     = mats i + ReducedMatrixElement order_e i) /\
    (~ In i indices ->
     fst (sweep order_e (temp, mats)) i = temp i /\
     snd (sweep order_e (temp, mats)) i = mats i).
Proof.
  intros order_e temp mats i; unfold main.sweep.
  apply fold_assign, indices_NoDup.
Qed.

(** The loop body, iterated over a list of entries without a stop. *)
Lemma orders_loop_no_match (its : list (String.string * chiral.Order))
    (order : String.string) (st : main.state) :
  ~ In order (map fst its) ->
  orders_loop its order st
  = fold_left (fun st e => order_body (fst e) (snd e) st) its st.
Proof.
  revert st; induction its as [| [first second] rest IH]; intros st Hni.
  - reflexivity.
  - cbn [main.orders_loop fold_left fst snd].
    destruct (String.eqb_spec first order) as [-> | _].
    + exfalso; apply Hni; left; reflexivity.
    + apply IH; intros Hin; apply Hni; right; assumption.
Qed.

(** The loop stops after the requested order: the entries that follow it
    are never reached. *)
Lemma orders_loop_match (pre post : list (String.string * chiral.Order))
    (order : String.string) (o : chiral.Order) (st : main.state) :
  ~ In order (map fst pre) ->
  orders_loop (pre ++ (order, o) :: post) order st
  = fold_left (fun st e => order_body (fst e) (snd e) st)
              (pre ++ [(order, o)]) st.
Proof.
  revert st; induction pre as [| [first second] rest IH]; intros st Hni.
  - cbn [app main.orders_loop fold_left fst snd].
    rewrite String.eqb_refl; reflexivity.
  - cbn [app main.orders_loop fold_left fst snd].
    destruct (String.eqb_spec first order) as [-> | _].
    + exfalso; apply Hni; left; reflexivity.
    + apply IH; intros Hin; apply Hni; right; assumption.
Qed.

Lemma order_body_matrices (first : String.string) (second : chiral.Order)
    (st : main.state) (i : main.index) :
  (In i indices ->
   main.temp_matrices (order_body first second st) i
   = ReducedMatrixElement second i /\
   main.matrices (order_body first second st) i
   = main.matrices st i + ReducedMatrixElement second i) /\
  (~ In i indices ->
   main.temp_matrices (order_body first second st) i
   = main.temp_matrices st i /\
   main.matrices (order_body first second st) i = main.matrices st i).
Proof.
  pose proof (sweep_at_index
                second (main.temp_matrices st) (main.matrices st) i) as Hs.
  unfold main.order_body.
  destruct (sweep second (main.temp_matrices st, main.matrices st))
    as [temp mats].
  exact Hs.
Qed.

Lemma order_body_written (first : String.string) (second : chiral.Order)
    (st : main.state) :
  main.written (order_body first second st)
  = main.written st
    ++ [(order_file first,
         main.temp_matrices (order_body first second st))].
Proof.
  unfold main.order_body.
  destruct (sweep second (main.temp_matrices st, main.matrices st))
    as [temp mats].
  reflexivity.
Qed.

Lemma fold_body_matrices (its : list (String.string * chiral.Order))
    (st : main.state) (i : main.index) :
  In i indices ->
  main.matrices
    (fold_left (fun st e => order_body (fst e) (snd e) st) its st) i
  = fold_left (fun acc o => acc + ReducedMatrixElement o i)
              (map snd its) (main.matrices st i).
Proof.
  intros Hi; revert st; induction its as [| [first second] rest IH];
    intros st; [reflexivity |].
  cbn [fold_left map fst snd]; rewrite IH.
  destruct (order_body_matrices first second st i) as [Hin _].
  destruct (Hin Hi) as [_ ->]; reflexivity.
Qed.

Lemma fold_body_outside (its : list (String.string * chiral.Order))
    (st : main.state) (i : main.index) :
  ~ In i indices ->
  main.temp_matrices
    (fold_left (fun st e => order_body (fst e) (snd e) st) its st) i
  = main.temp_matrices st i /\
  main.matrices
    (fold_left (fun st e => order_body (fst e) (snd e) st) its st) i
  = main.matrices st i.
Proof.
  intros Hi; revert st; induction its as [| [first second] rest IH];
    intros st; [split; reflexivity |].
  cbn [fold_left fst snd].
  destruct (IH (order_body first second st)) as [-> ->].
  destruct (order_body_matrices first second st i) as [_ Hout].
  exact (Hout Hi).
Qed.

Lemma fold_body_written (its : list (String.string * chiral.Order))
    (st : main.state) :
  exists ws : list (String.string * main.blocks),
    main.written
      (fold_left (fun st e => order_body (fst e) (snd e) st) its st)
    = main.written st ++ ws /\
    Forall2
      (fun w e =>
         fst w = order_file (fst e) /\
         forall i, In i indices -> snd w i = ReducedMatrixElement (snd e) i)
      ws its.
Proof.
  revert st; induction its as [| [first second] rest IH]; intros st.
  - exists []; split; [symmetry; apply app_nil_r | constructor].
  - cbn [fold_left fst snd].
    destruct (IH (order_body first second st)) as (ws & Hw & Hall).
    exists ((order_file first,
             main.temp_matrices (order_body first second st)) :: ws).
    split.
    + rewrite Hw, order_body_written, <- app_assoc; reflexivity.
    + constructor; [| exact Hall].
      split; [reflexivity |].
      intros i Hi.
      destruct (order_body_matrices first second st i) as [Hin _].
      apply (Hin Hi).
Qed.

(** Whatever the requested order, the loop is the loop body iterated over
    the first entries of the map. *)
Lemma orders_loop_prefix (its : list (String.string * chiral.Order))
    (order : String.string) (st : main.state) :
  exists pre post,
    its = pre ++ post /\
    orders_loop its order st
    = fold_left (fun st e => order_body (fst e) (snd e) st) pre st.
Proof.
  revert st; induction its as [| [first second] rest IH]; intros st.
  - exists [], []; split; reflexivity.
  - cbn [main.orders_loop].
    destruct (String.eqb first order).
    + exists [(first, second)], rest; split; reflexivity.
    + destruct (IH (order_body first second st)) as (pre & post & -> & Hl).
      exists ((first, second) :: pre), post; split; [reflexivity |].
      exact Hl.
Qed.

(** X16. One pass over isospin, sectors and states for an order leaves,
    at every index within the bounds of the loops, the matrix element of that
    order in [temp_matrices] and adds it once to [matrices]; every other
    index of both containers is left as it was. *)
Theorem sweep_updates_each_index_once :
  forall (order_e : chiral.Order) (temp mats : main.blocks) (i : main.index),
    (In i indices ->
     fst (sweep order_e (temp, mats)) i = ReducedMatrixElement order_e i /\
     snd (sweep order_e (temp, mats)) i
     = mats i + ReducedMatrixElement order_e i) /\
    (~ In i indices ->
     fst (sweep order_e (temp, mats)) i = temp i /\
     snd (sweep order_e (temp, mats)) i = mats i).
Proof. exact sweep_at_index. Qed.

(** X17. When the requested order is a name of the map, the cumulative
    container holds, at every index within the bounds, the initial element
    plus the matrix elements of the orders up to and including the requested
    one, added in the order of the map; the orders after it are not
    evaluated.  [temp_matrices] holds the requested order alone. *)
Theorem run_requested_order :
  forall (pre post : list (String.string * chiral.Order))
         (order : String.string) (o : chiral.Order)
         (matrices0 : main.blocks) (i : main.index),
    order_map = pre ++ (order, o) :: post ->
    ~ In order (map fst pre) ->
    In i indices ->
    main.matrices (run order matrices0) i
    = fold_left (fun acc o' => acc + ReducedMatrixElement o' i)
                (map snd pre ++ [o]) (matrices0 i) /\
    main.temp_matrices (run order matrices0) i = ReducedMatrixElement o i.
Proof.
  intros pre post order o matrices0 i Hmap Hni Hi.
  unfold main.run; cbv zeta; cbn [main.matrices main.temp_matrices].
  rewrite Hmap, (orders_loop_match pre post order o _ Hni).
  split.
  - rewrite fold_body_matrices by assumption.
    rewrite map_app; reflexivity.
  - rewrite fold_left_app; cbn [fold_left fst snd].
    destruct (order_body_matrices order o
                (fold_left (fun st e => order_body (fst e) (snd e) st) pre
                           (main.mk_state matrices0 matrices0 [])) i)
      as [Hin _].
    apply (Hin Hi).
Qed.

(** X18. When the requested order is not a name of the map, the loop
    never stops early: every order of the map is evaluated and added to the
    cumulative container, and the files written are one per order of the map,
    in the order of the map, each under the name built from the name of its
    order and each holding, at every index within the bounds, the matrix
    element of that order alone; the cumulative file, named after the
    requested order and holding the cumulative container, follows them. *)
Theorem run_unknown_order :
  forall (order : String.string) (matrices0 : main.blocks),
    ~ In order (map fst order_map) ->
    (forall i : main.index,
        In i indices ->
        main.matrices (run order matrices0) i
        = fold_left (fun acc o => acc + ReducedMatrixElement o i)
                    (map snd order_map) (matrices0 i)) /\
    exists ws : list (String.string * main.blocks),
      main.written (run order matrices0)
      = ws ++ [(cumulative_file order, main.matrices (run order matrices0))]
      /\
      Forall2
        (fun w e =>
           fst w = order_file (fst e) /\
           forall i, In i indices -> snd w i = ReducedMatrixElement (snd e) i)
        ws order_map.
Proof.
  intros order matrices0 Hni.
  unfold main.run; cbv zeta; cbn [main.matrices main.written].
  rewrite (orders_loop_no_match order_map order _ Hni).
  split; [intros i Hi; apply fold_body_matrices; assumption |].
  destruct (fold_body_written order_map
              (main.mk_state matrices0 matrices0 [])) as (ws & Hw & Hall).
  exists ws; split; [| exact Hall].
  rewrite Hw; reflexivity.
Qed.

(** X19. When the requested order is a name of the map, the files written
    are one per order up to the requested one, in the order of the map, each
    under the name built from the name of its order and each holding, at
    every index within the bounds, the matrix element of that order alone;
    then the cumulative file, holding the cumulative container. *)
Theorem run_files :
  forall (pre post : list (String.string * chiral.Order))
         (order : String.string) (o : chiral.Order) (matrices0 : main.blocks),
    order_map = pre ++ (order, o) :: post ->
    ~ In order (map fst pre) ->
    exists ws : list (String.string * main.blocks),
      main.written (run order matrices0)
      = ws ++ [(cumulative_file order, main.matrices (run order matrices0))]
      /\
      Forall2
        (fun w e =>
           fst w = order_file (fst e) /\
           forall i, In i indices -> snd w i = ReducedMatrixElement (snd e) i)
        ws (pre ++ [(order, o)]).
Proof.
  intros pre post order o matrices0 Hmap Hni.
  unfold main.run; cbv zeta; cbn [main.matrices main.written].
  rewrite Hmap, (orders_loop_match pre post order o _ Hni).
  destruct (fold_body_written (pre ++ [(order, o)])
              (main.mk_state matrices0 matrices0 [])) as (ws & Hw & Hall).
  exists ws; split; [| exact Hall].
  rewrite Hw; reflexivity.
Qed.

(** X20. Whatever the requested order, an index outside the bounds of the
    loops keeps its initial element in both containers. *)
Theorem run_outside_bounds :
  forall (order : String.string) (matrices0 : main.blocks) (i : main.index),
    ~ In i indices ->
    main.matrices (run order matrices0) i = matrices0 i /\
    main.temp_matrices (run order matrices0) i = matrices0 i.
Proof.
  intros order matrices0 i Hi.
  unfold main.run; cbv zeta; cbn [main.matrices main.temp_matrices].
  destruct (orders_loop_prefix order_map order
              (main.mk_state matrices0 matrices0 []))
    as (pre & post & _ & ->).
  destruct (fold_body_outside pre (main.mk_state matrices0 matrices0 []) i Hi)
    as [-> ->].
  split; reflexivity.
Qed.

End DriverFacts.

(** * Instances in the concrete environments *)

Section ExtraInFixture.
#[local] Existing Instance Fixture.constants_lib.
#[local] Existing Instance Fixture.util_lib.
#[local] Existing Instance Fixture.am_lib.
#[local] Existing Instance Fixture.ho_lib.
#[local] Existing Instance Fixture.quadrature_lib.

Lemma NLOMatrixElement_Relative_support_witness :
  ~ (1 = 1 /\ (2 = 0 \/ 2 = 1) /\
     RelativeStateLSJT.n Fixture.s_wave = RelativeStateLSJT.n Fixture.s_wave /\
     RelativeStateLSJT.L Fixture.s_wave = RelativeStateLSJT.L Fixture.s_wave)
  /\ ~ (1 = 2 /\ 2 = 1) /\
  M1Operator.OnRelative.NLOMatrixElement
    Fixture.s_wave Fixture.s_wave Fixture.b true Fixture.one 2 1 = zero.
Proof.
  assert (H1 :
    ~ (1 = 1 /\ (2 = 0 \/ 2 = 1) /\
       RelativeStateLSJT.n Fixture.s_wave
       = RelativeStateLSJT.n Fixture.s_wave /\
       RelativeStateLSJT.L Fixture.s_wave
       = RelativeStateLSJT.L Fixture.s_wave))
    by (intros (_ & [E | E] & _); discriminate E).
  assert (H2 : ~ (1 = 2 /\ 2 = 1)) by (intros [E _]; discriminate E).
  split; [exact H1 |]; split; [exact H2 |].
  exact (NLOMatrixElement_Relative_support
           Fixture.s_wave Fixture.s_wave Fixture.b true Fixture.one 2 1
           H1 H2).
Defined.

Lemma NLOMatrixElement_RelativeCM_support_witness :
  ~ (2 = 1 /\ (0 = 0 \/ 0 = 1)) /\ ~ (2 = 2 /\ 0 = 1) /\
  M1Operator.OnRelativeCM.NLOMatrixElement
    Fixture.cm_ground Fixture.cm_ground Fixture.b true Fixture.one 0 2
  = Some zero.
Proof.
  assert (H1 : ~ (2 = 1 /\ (0 = 0 \/ 0 = 1)))
    by (intros [E _]; discriminate E).
  assert (H2 : ~ (2 = 2 /\ 0 = 1)) by (intros [_ E]; discriminate E).
  split; [exact H1 |]; split; [exact H2 |].
  exact (NLOMatrixElement_RelativeCM_support
           Fixture.cm_ground Fixture.cm_ground Fixture.b true Fixture.one 0 2
           H1 H2).
Defined.

Lemma NLOMatrixElement_Relative_not_nan_witness :
  2 <> 1 /\
  isnan (M1Operator.OnRelative.NLOMatrixElement
           Fixture.s_wave Fixture.s_wave Fixture.b true Fixture.one 1 2)
  = false.
Proof.
  assert (H1 : 2 <> 1) by differ.
  split; [exact H1 |].
  exact (NLOMatrixElement_Relative_not_nan
           Fixture.s_wave Fixture.s_wave Fixture.b true Fixture.one 1 2 H1).
Defined.

Lemma NLOMatrixElement_RelativeCM_not_nan_witness :
  M1Operator.OnRelativeCM.NLOMatrixElement
    Fixture.cm_ground Fixture.cm_ground Fixture.b true Fixture.one 0 1
  = Some (RelativeCM.NLO1Body Fixture.cm_ground Fixture.cm_ground 0) /\
  isnan (RelativeCM.NLO1Body Fixture.cm_ground Fixture.cm_ground 0) = false.
Proof.
  split; [reflexivity |].
  exact (NLOMatrixElement_RelativeCM_not_nan
           Fixture.cm_ground Fixture.cm_ground Fixture.b true Fixture.one 0 1
           (RelativeCM.NLO1Body Fixture.cm_ground Fixture.cm_ground 0)
           eq_refl).
Defined.

Lemma NLO1Body_RelativeCM_isoscalar_off_diagonal_witness :
  RelativeCMStateLSJT.T Fixture.cm_ground
  <> RelativeCMStateLSJT.T Scenario.cm_isovector /\
  is_zero (RelativeCM.NLO1Body Fixture.cm_ground Scenario.cm_isovector 0)
  = true.
Proof.
  assert (HT :
    RelativeCMStateLSJT.T Fixture.cm_ground
    <> RelativeCMStateLSJT.T Scenario.cm_isovector) by differ.
  split; [exact HT |].
  exact (NLO1Body_RelativeCM_isoscalar_off_diagonal
           Fixture.cm_ground Scenario.cm_isovector HT).
Defined.

Lemma NLO1Body_Relative_isoscalar_off_diagonal_witness :
  RelativeStateLSJT.T Fixture.s_wave <> RelativeStateLSJT.T Scenario.singlet_s
  /\
  is_finite
    (constants.isoscalar_nucleon_magnetic_moment
     * am.RelativeSpinSymmetricRME 0 0 1 0 1 0 0 1) = true /\
  is_finite (half * am.RelativeLrelRME 0 0 1 0 1 0) = true /\
  is_zero (Relative.NLO1Body Fixture.s_wave Scenario.singlet_s 0) = true.
Proof.
  assert (HT :
    RelativeStateLSJT.T Fixture.s_wave
    <> RelativeStateLSJT.T Scenario.singlet_s) by differ.
  assert (Hspin :
    is_finite
      (constants.isoscalar_nucleon_magnetic_moment
       * am.RelativeSpinSymmetricRME 0 0 1 0 1 0 0 1) = true)
    by by_evaluation.
  assert (Hoam : is_finite (half * am.RelativeLrelRME 0 0 1 0 1 0) = true)
    by by_evaluation.
  split; [exact HT |]; split; [exact Hspin |]; split; [exact Hoam |].
  exact (NLO1Body_Relative_isoscalar_off_diagonal
           Fixture.s_wave Scenario.singlet_s HT Hspin Hoam).
Defined.

Lemma N3LO2BodyIsoscalar_d9_only_witness :
  (RelativeStateLSJT.L Fixture.d_wave <> 0 \/
   RelativeStateLSJT.T Fixture.s_wave <> RelativeStateLSJT.T Fixture.d_wave)
  /\
  Relative.N3LO2BodyIsoscalar_L2_term
    Fixture.s_wave Fixture.d_wave Fixture.b true Fixture.one = zero /\
  Relative.N3LO2BodyIsoscalar
    Fixture.s_wave Fixture.d_wave Fixture.b true Fixture.one 0 =
  sanitize
    ((Relative.N3LO2BodyIsoscalar_d9_term
        Fixture.s_wave Fixture.d_wave Fixture.b true Fixture.one
      + zero)
     * (of_int 2 * constants.nucleon_mass_fm)).
Proof.
  assert (Hsel :
    RelativeStateLSJT.L Fixture.d_wave <> 0 \/
    RelativeStateLSJT.T Fixture.s_wave <> RelativeStateLSJT.T Fixture.d_wave)
    by (left; differ).
  split; [exact Hsel |].
  exact (N3LO2BodyIsoscalar_d9_only
           Fixture.s_wave Fixture.d_wave Fixture.b true Fixture.one 0 Hsel).
Defined.

Lemma Relative_evaluators_ignore_cm_length_witness :
  util.relative Fixture.b
  = util.relative (util.mkOscillatorParameter (of_int 2) (of_int 5)) /\
  Relative.NLO2Body
    Fixture.s_wave Fixture.s_wave Fixture.b true Fixture.one 1 =
  Relative.NLO2Body
    Fixture.s_wave Fixture.s_wave
    (util.mkOscillatorParameter (of_int 2) (of_int 5)) true Fixture.one 1 /\
  Relative.N3LO2BodyIsoscalar
    Fixture.s_wave Fixture.s_wave Fixture.b true Fixture.one 1 =
  Relative.N3LO2BodyIsoscalar
    Fixture.s_wave Fixture.s_wave
    (util.mkOscillatorParameter (of_int 2) (of_int 5)) true Fixture.one 1.
Proof.
  split; [reflexivity |].
  exact (Relative_evaluators_ignore_cm_length
           Fixture.s_wave Fixture.s_wave Fixture.b
           (util.mkOscillatorParameter (of_int 2) (of_int 5))
           true Fixture.one 1 eq_refl).
Defined.

End ExtraInFixture.

Section ExtraInScenario.
#[local] Existing Instance Scenario.constants_lib.
#[local] Existing Instance Fixture.util_lib.
#[local] Existing Instance Scenario.am_lib.
#[local] Existing Instance Fixture.ho_lib.
#[local] Existing Instance Fixture.quadrature_lib.

Lemma NLO1Body_Relative_isoscalar_diagonal_witness :
  valid_binary prec emax
    (constants.isoscalar_nucleon_magnetic_moment
     * am.RelativeSpinSymmetricRME 0 0 1 1 1 1 0 1) = true /\
  valid_binary prec emax (half * am.RelativeLrelRME 0 0 1 1 1 1) = true /\
  Relative.NLO1Body Fixture.s_wave Fixture.s_wave 0
  = constants.isoscalar_nucleon_magnetic_moment
    * am.RelativeSpinSymmetricRME 0 0 1 1 1 1 0 1
    + half * am.RelativeLrelRME 0 0 1 1 1 1.
Proof.
  assert (Hspin :
    valid_binary prec emax
      (constants.isoscalar_nucleon_magnetic_moment
       * am.RelativeSpinSymmetricRME 0 0 1 1 1 1 0 1) = true)
    by by_evaluation.
  assert (Hoam :
    valid_binary prec emax (half * am.RelativeLrelRME 0 0 1 1 1 1) = true)
    by by_evaluation.
  split; [exact Hspin |]; split; [exact Hoam |].
  exact (NLO1Body_Relative_isoscalar_diagonal
           Fixture.s_wave Fixture.s_wave eq_refl eq_refl eq_refl Hspin Hoam).
Defined.

Lemma NLOMatrixElement_isoscalar_magnetic_moment_witness :
  am.RelativeSpinSymmetricRME 0 0 1 1 1 1 0 1 = of_int 1 /\
  is_zero (am.RelativeLrelRME 0 0 1 1 1 1) = true /\
  valid_binary prec emax constants.isoscalar_nucleon_magnetic_moment = true /\
  is_zero constants.isoscalar_nucleon_magnetic_moment = false /\
  M1Operator.OnRelative.NLOMatrixElement
    Fixture.s_wave Fixture.s_wave Fixture.b true Fixture.one 0 1
  = constants.isoscalar_nucleon_magnetic_moment.
Proof.
  assert (Hv :
    valid_binary prec emax constants.isoscalar_nucleon_magnetic_moment = true)
    by by_evaluation.
  assert (Hnz : is_zero constants.isoscalar_nucleon_magnetic_moment = false)
    by by_evaluation.
  split; [reflexivity |]; split; [reflexivity |].
  split; [exact Hv |]; split; [exact Hnz |].
  exact (NLOMatrixElement_isoscalar_magnetic_moment
           Fixture.s_wave Fixture.s_wave Fixture.b true Fixture.one
           eq_refl eq_refl eq_refl eq_refl eq_refl Hv Hnz).
Defined.

End ExtraInScenario.

Section ExtraInNaNIntegral.
#[local] Existing Instance Fixture.constants_lib.
#[local] Existing Instance Fixture.util_lib.
#[local] Existing Instance Fixture.am_lib.
#[local] Existing Instance Fixture.ho_lib.
#[local] Existing Instance Scenario.quadrature_nan_lib.

Lemma NLO2Body_RelativeCM_nan_not_sanitized_witness :
  is_finite
    (RelativeCM.NLO2Body_relative_value
       Fixture.cm_ground Fixture.cm_ground Fixture.b true Fixture.one)
  = false /\
  RelativeCM.NLO2Body
    Fixture.cm_ground Fixture.cm_ground Fixture.b true Fixture.one 1 = None.
Proof.
  assert (Hnf :
    is_finite
      (RelativeCM.NLO2Body_relative_value
         Fixture.cm_ground Fixture.cm_ground Fixture.b true Fixture.one)
    = false) by by_evaluation.
  split; [exact Hnf |].
  exact (NLO2Body_RelativeCM_nan_not_sanitized
           Fixture.cm_ground Fixture.cm_ground Fixture.b true Fixture.one
           eq_refl eq_refl Hnf).
Defined.

End ExtraInNaNIntegral.

Lemma osc_b_default_hw_infinite_witness :
  SFltb zero (of_int 197 * of_int 197 / of_int 469) = true /\
  main.osc_b (of_int 197) (of_int 469) main.default_hw = S754_infinity false.
Proof.
  assert (Hq : SFltb zero (of_int 197 * of_int 197 / of_int 469) = true)
    by by_evaluation.
  split; [exact Hq |].
  exact (osc_b_default_hw_infinite (of_int 197) (of_int 469) Hq).
Defined.

Lemma osc_b_nonpositive_hw_witness :
  SFltb zero (of_int 197 * of_int 197 / of_int 469) = true /\
  SFleb (of_int (-20)) zero = true /\
  main.is_positive_finite
    (main.osc_b (of_int 197) (of_int 469) (of_int (-20))) = false.
Proof.
  assert (Hq : SFltb zero (of_int 197 * of_int 197 / of_int 469) = true)
    by by_evaluation.
  assert (Hhw : SFleb (of_int (-20)) zero = true) by by_evaluation.
  split; [exact Hq |]; split; [exact Hhw |].
  exact (osc_b_nonpositive_hw (of_int 197) (of_int 469) (of_int (-20))
           Hq Hhw).
Defined.

Section ExtraInDriverScenario.

Local Abbreviation indices :=
  (main.indices DriverScenario.T0_min DriverScenario.T0_max
     DriverScenario.sectors_size DriverScenario.bra_subspace_size
     DriverScenario.ket_subspace_size).
Local Abbreviation sweep :=
  (main.sweep DriverScenario.ReducedMatrixElement
     DriverScenario.T0_min DriverScenario.T0_max
     DriverScenario.sectors_size DriverScenario.bra_subspace_size
     DriverScenario.ket_subspace_size).
Local Abbreviation order_file :=
  (main.order_file DriverScenario.operator_name DriverScenario.Nmax_str
     DriverScenario.Jmax_str DriverScenario.hw_str DriverScenario.time_str).
Local Abbreviation cumulative_file :=
  (main.cumulative_file DriverScenario.operator_name DriverScenario.Nmax_str
     DriverScenario.Jmax_str DriverScenario.hw_str DriverScenario.time_str).

Lemma inside_in_bounds : In DriverScenario.inside indices.
Proof. vm_compute; auto. Defined.

Lemma outside_out_of_bounds : ~ In DriverScenario.outside indices.
Proof.
  intros Hin; vm_compute in Hin.
  destruct Hin as [E | [E | []]]; discriminate E.
Defined.

Lemma nlo_after_lo :
  ~ In DriverScenario.nlo_name
       (map fst (firstn 1 DriverScenario.order_map)).
Proof.
  intros Hin; vm_compute in Hin.
  destruct Hin as [E | []]; discriminate E.
Defined.

Lemma unknown_name_not_in_map :
  ~ In DriverScenario.unknown_name (map fst DriverScenario.order_map).
Proof.
  intros Hin; vm_compute in Hin.
  destruct Hin as [E | [E | [E | []]]]; discriminate E.
Defined.

Lemma sweep_updates_each_index_once_witness :
  In DriverScenario.inside indices /\
  ~ In DriverScenario.outside indices /\
  (fst (sweep chiral.nlo
          (DriverScenario.zero_blocks, DriverScenario.zero_blocks))
       DriverScenario.inside
   = DriverScenario.ReducedMatrixElement chiral.nlo DriverScenario.inside /\
   snd (sweep chiral.nlo
          (DriverScenario.zero_blocks, DriverScenario.zero_blocks))
       DriverScenario.inside
   = DriverScenario.zero_blocks DriverScenario.inside
     + DriverScenario.ReducedMatrixElement chiral.nlo DriverScenario.inside)
  /\
  (fst (sweep chiral.nlo
          (DriverScenario.zero_blocks, DriverScenario.zero_blocks))
       DriverScenario.outside
   = DriverScenario.zero_blocks DriverScenario.outside /\
   snd (sweep chiral.nlo
          (DriverScenario.zero_blocks, DriverScenario.zero_blocks))
       DriverScenario.outside
   = DriverScenario.zero_blocks DriverScenario.outside).
Proof.
  split; [exact inside_in_bounds |].
  split; [exact outside_out_of_bounds |].
  split.
  - exact (proj1 (sweep_updates_each_index_once
                    DriverScenario.ReducedMatrixElement
                    DriverScenario.T0_min DriverScenario.T0_max
                    DriverScenario.sectors_size
                    DriverScenario.bra_subspace_size
                    DriverScenario.ket_subspace_size
                    chiral.nlo DriverScenario.zero_blocks
                    DriverScenario.zero_blocks DriverScenario.inside)
                 inside_in_bounds).
  - exact (proj2 (sweep_updates_each_index_once
                    DriverScenario.ReducedMatrixElement
                    DriverScenario.T0_min DriverScenario.T0_max
                    DriverScenario.sectors_size
                    DriverScenario.bra_subspace_size
                    DriverScenario.ket_subspace_size
                    chiral.nlo DriverScenario.zero_blocks
                    DriverScenario.zero_blocks DriverScenario.outside)
                 outside_out_of_bounds).
Defined.

Lemma run_requested_order_witness :
  DriverScenario.order_map
  = firstn 1 DriverScenario.order_map
    ++ (DriverScenario.nlo_name, chiral.nlo)
       :: skipn 2 DriverScenario.order_map /\
  ~ In DriverScenario.nlo_name
       (map fst (firstn 1 DriverScenario.order_map)) /\
  In DriverScenario.inside indices /\
  main.matrices (DriverScenario.run DriverScenario.nlo_name)
    DriverScenario.inside
  = fold_left
      (fun acc o' =>
         acc + DriverScenario.ReducedMatrixElement o' DriverScenario.inside)
      (map snd (firstn 1 DriverScenario.order_map) ++ [chiral.nlo])
      (DriverScenario.zero_blocks DriverScenario.inside) /\
  main.temp_matrices (DriverScenario.run DriverScenario.nlo_name)
    DriverScenario.inside
  = DriverScenario.ReducedMatrixElement chiral.nlo DriverScenario.inside.
Proof.
  split; [reflexivity |].
  split; [exact nlo_after_lo |].
  split; [exact inside_in_bounds |].
  exact (run_requested_order
           DriverScenario.order_map DriverScenario.ReducedMatrixElement
           DriverScenario.T0_min DriverScenario.T0_max
           DriverScenario.sectors_size DriverScenario.bra_subspace_size
           DriverScenario.ket_subspace_size
           DriverScenario.operator_name DriverScenario.Nmax_str
           DriverScenario.Jmax_str DriverScenario.hw_str
           DriverScenario.time_str
           (firstn 1 DriverScenario.order_map)
           (skipn 2 DriverScenario.order_map)
           DriverScenario.nlo_name chiral.nlo DriverScenario.zero_blocks
           DriverScenario.inside eq_refl nlo_after_lo inside_in_bounds).
Defined.

Lemma run_unknown_order_witness :
  ~ In DriverScenario.unknown_name (map fst DriverScenario.order_map) /\
  (forall i : main.index,
      In i indices ->
      main.matrices (DriverScenario.run DriverScenario.unknown_name) i
      = fold_left
          (fun acc o => acc + DriverScenario.ReducedMatrixElement o i)
          (map snd DriverScenario.order_map)
          (DriverScenario.zero_blocks i)) /\
  exists ws : list (String.string * main.blocks),
    main.written (DriverScenario.run DriverScenario.unknown_name)
    = ws ++ [(cumulative_file DriverScenario.unknown_name,
              main.matrices
                (DriverScenario.run DriverScenario.unknown_name))]
    /\
    Forall2
      (fun w e =>
         fst w = order_file (fst e) /\
         forall i,
           In i indices ->
           snd w i = DriverScenario.ReducedMatrixElement (snd e) i)
      ws DriverScenario.order_map.
Proof.
  split; [exact unknown_name_not_in_map |].
  exact (run_unknown_order
           DriverScenario.order_map DriverScenario.ReducedMatrixElement
           DriverScenario.T0_min DriverScenario.T0_max
           DriverScenario.sectors_size DriverScenario.bra_subspace_size
           DriverScenario.ket_subspace_size
           DriverScenario.operator_name DriverScenario.Nmax_str
           DriverScenario.Jmax_str DriverScenario.hw_str
           DriverScenario.time_str
           DriverScenario.unknown_name DriverScenario.zero_blocks
           unknown_name_not_in_map).
Defined.

Lemma run_files_witness :
  DriverScenario.order_map
  = firstn 1 DriverScenario.order_map
    ++ (DriverScenario.nlo_name, chiral.nlo)
       :: skipn 2 DriverScenario.order_map /\
  ~ In DriverScenario.nlo_name
       (map fst (firstn 1 DriverScenario.order_map)) /\
  exists ws : list (String.string * main.blocks),
    main.written (DriverScenario.run DriverScenario.nlo_name)
    = ws ++ [(cumulative_file DriverScenario.nlo_name,
              main.matrices (DriverScenario.run DriverScenario.nlo_name))]
    /\
    Forall2
      (fun w e =>
         fst w = order_file (fst e) /\
         forall i,
           In i indices ->
           snd w i = DriverScenario.ReducedMatrixElement (snd e) i)
      ws
      (firstn 1 DriverScenario.order_map
       ++ [(DriverScenario.nlo_name, chiral.nlo)]).
Proof.
  split; [reflexivity |].
  split; [exact nlo_after_lo |].
  exact (run_files
           DriverScenario.order_map DriverScenario.ReducedMatrixElement
           DriverScenario.T0_min DriverScenario.T0_max
           DriverScenario.sectors_size DriverScenario.bra_subspace_size
           DriverScenario.ket_subspace_size
           DriverScenario.operator_name DriverScenario.Nmax_str
           DriverScenario.Jmax_str DriverScenario.hw_str
           DriverScenario.time_str
           (firstn 1 DriverScenario.order_map)
           (skipn 2 DriverScenario.order_map)
           DriverScenario.nlo_name chiral.nlo DriverScenario.zero_blocks
           eq_refl nlo_after_lo).
Defined.

Lemma run_outside_bounds_witness :
  ~ In DriverScenario.outside indices /\
  main.matrices (DriverScenario.run DriverScenario.nlo_name)
    DriverScenario.outside
  = DriverScenario.zero_blocks DriverScenario.outside /\
  main.temp_matrices (DriverScenario.run DriverScenario.nlo_name)
    DriverScenario.outside
  = DriverScenario.zero_blocks DriverScenario.outside.
Proof.
  split; [exact outside_out_of_bounds |].
  exact (run_outside_bounds
           DriverScenario.order_map DriverScenario.ReducedMatrixElement
           DriverScenario.T0_min DriverScenario.T0_max
           DriverScenario.sectors_size DriverScenario.bra_subspace_size
           DriverScenario.ket_subspace_size
           DriverScenario.operator_name DriverScenario.Nmax_str
           DriverScenario.Jmax_str DriverScenario.hw_str
           DriverScenario.time_str
           DriverScenario.nlo_name DriverScenario.zero_blocks
           DriverScenario.outside outside_out_of_bounds).
Defined.

(** The run for "nlo": two order files and the cumulative file; the
    cumulative element is 0 + 0 + 1. *)
Example run_nlo_values :
  map fst (main.written (DriverScenario.run DriverScenario.nlo_name))
  = [order_file (fst (nth 0 DriverScenario.order_map
                         (DriverScenario.nlo_name, chiral.nlo)));
     order_file DriverScenario.nlo_name;
     cumulative_file DriverScenario.nlo_name] /\
  main.matrices (DriverScenario.run DriverScenario.nlo_name)
    DriverScenario.inside = Fixture.one.
Proof. split; by_evaluation. Qed.

(** The run for a name that is not in the map: three order files in the
    order of the map, then the cumulative file; the cumulative element is
    0 + 0 + 1 + 2. *)
Example run_unknown_values :
  map fst (main.written (DriverScenario.run DriverScenario.unknown_name))
  = map (fun e => order_file (fst e)) DriverScenario.order_map
    ++ [cumulative_file DriverScenario.unknown_name] /\
  main.matrices (DriverScenario.run DriverScenario.unknown_name)
    DriverScenario.inside = of_int 3.
Proof. split; by_evaluation. Qed.

End ExtraInDriverScenario.

Section InSelectionRuleLibrary.
#[local] Existing Instance Fixture.constants_lib.
#[local] Existing Instance Fixture.util_lib.
#[local] Existing Instance Scenario.am_selection_lib.
#[local] Existing Instance Fixture.ho_lib.
#[local] Existing Instance Fixture.quadrature_lib.

Lemma selection_rule_of_library :
  forall Lp L Sp S Jp J : N,
    Lp <> L ->
    is_zero (am.RelativeSpinSymmetricRME Lp L Sp S Jp J 0 1) = true.
Proof.
  intros Lp L Sp S Jp J Hne.
  unfold am.RelativeSpinSymmetricRME, Scenario.am_selection_lib.
  destruct (N.eqb_spec Lp L) as [E | _]; [contradiction | reflexivity].
Defined.


(** In this library the value returned between the 3D1 bra and the 3S1 ket
    is the d9 term alone, and it is not 0. *)
Example N3LO_D_wave_bra_d9_alone :
  Relative.N3LO2BodyIsoscalar
    Fixture.d_wave Fixture.s_wave Fixture.b true Fixture.one 0
  = sanitize
      (Relative.N3LO2BodyIsoscalar_d9_term
         Fixture.d_wave Fixture.s_wave Fixture.b true Fixture.one
       * (of_int 2 * constants.nucleon_mass_fm)) /\
  is_zero
    (Relative.N3LO2BodyIsoscalar
       Fixture.d_wave Fixture.s_wave Fixture.b true Fixture.one 0) = false.
Proof. split; by_evaluation. Qed.

End InSelectionRuleLibrary.
